(** * Formik: the form state controller of [src/Formik.tsx]

    A shallow embedding of the [Formik] component class: its value trees,
    the three validation sources, the cancelable whole-form validation run,
    the submit and reset flows and the memoised change handlers, followed by
    the properties of the controller that are established on it. *)

From Stdlib Require Import ZArith String Ascii List Bool Arith Lia.
From stdpp Require Import gmap strings list fin_maps.
Import ListNotations.

Local Open Scope string_scope.
Local Open Scope nat_scope.

Set Warnings "-register-all,-clear-no-such-hyp".

(** ** JavaScript values

    Form values, error trees and touched trees are plain JavaScript data.
    An object is kept as its list of own enumerable properties in insertion
    order, which is the order [Object.keys] and [for .. in] enumerate; an
    [Error] instance has no enumerable property and is the empty object.
    Numeric leaves are integers. *)

Inductive value : Type :=
  | VUndef
  | VNull
  | VBool (b : bool)
  | VNum (z : Z)
  | VStr (s : string)
  | VObj (props : list (string * value))
  | VArr (items : list value).

(** The induction principle that reaches the values stored in a container. *)
Section ValueInd.
Variable P : value -> Prop.
Hypothesis HUndef : P VUndef.
Hypothesis HNull : P VNull.
Hypothesis HBool : forall b, P (VBool b).
Hypothesis HNum : forall z, P (VNum z).
Hypothesis HStr : forall s, P (VStr s).
Hypothesis HObj : forall props, Forall (fun kv => P (snd kv)) props -> P (VObj props).
Hypothesis HArr : forall items, Forall P items -> P (VArr items).

Fixpoint value_ind_deep (v : value) : P v :=
  match v with
  | VUndef => HUndef
  | VNull => HNull
  | VBool b => HBool b
  | VNum z => HNum z
  | VStr s => HStr s
  | VObj props =>
      HObj props
        ((fix go (l : list (string * value)) : Forall (fun kv => P (snd kv)) l :=
            match l with
            | [] => @List.Forall_nil _ _
            | kv :: r => @List.Forall_cons _ _ kv r (value_ind_deep (snd kv)) (go r)
            end) props)
  | VArr items =>
      HArr items
        ((fix go (l : list value) : Forall P l :=
            match l with
            | [] => @List.Forall_nil _ _
            | x :: r => @List.Forall_cons _ _ x r (value_ind_deep x) (go r)
            end) items)
  end.
End ValueInd.

(** [!!v] and [if (v)]: the falsy values are [undefined], [null], [false],
    [0] and the empty string. *)
Definition truthy (v : value) : bool :=
  match v with
  | VUndef | VNull => false
  | VBool b => b
  | VNum z => negb (Z.eqb z 0)
  | VStr s => negb (String.eqb s "")
  | VObj _ | VArr _ => true
  end.

(** [v === undefined] and [v !== ''] *)
Definition is_undefined (v : value) : bool :=
  match v with VUndef => true | _ => false end.

Definition is_empty_string (v : value) : bool :=
  match v with VStr s => String.eqb s "" | _ => false end.

(** *** Own properties *)

Fixpoint obj_find (k : string) (props : list (string * value)) : option value :=
  match props with
  | [] => None
  | (k', v) :: rest => if String.eqb k k' then Some v else obj_find k rest
  end.

(** [o[k] = v] on a plain object: an existing property keeps its place, a
    new one is added last. *)
Fixpoint obj_set (k : string) (v : value) (props : list (string * value))
  : list (string * value) :=
  match props with
  | [] => [(k, v)]
  | (k', v') :: rest =>
      if String.eqb k k' then (k, v) :: rest else (k', v') :: obj_set k v rest
  end.

Definition is_digit (c : ascii) : bool :=
  let n := nat_of_ascii c in (48 <=? n) && (n <=? 57).

Fixpoint digits_value (acc : nat) (s : string) : option nat :=
  match s with
  | EmptyString => Some acc
  | String c rest =>
      if is_digit c then digits_value (10 * acc + (nat_of_ascii c - 48)) rest
      else None
  end.

(** A path segment that is a non-negative integer addresses an array slot. *)
Definition array_index (k : string) : option nat :=
  match k with
  | EmptyString => None
  | _ => digits_value 0 k
  end.

(** [a[i] = v] on an array: JavaScript extends the array, the slots in
    between read as [undefined]. *)
Fixpoint arr_set (i : nat) (v : value) (items : list value) : list value :=
  match i, items with
  | O, [] => [v]
  | O, _ :: rest => v :: rest
  | S j, [] => VUndef :: arr_set j v []
  | S j, x :: rest => x :: arr_set j v rest
  end.

(** [v[k]], reading [undefined] where there is nothing *)
Definition get_prop (v : value) (k : string) : value :=
  match v with
  | VObj props => default VUndef (obj_find k props)
  | VArr items =>
      match array_index k with
      | Some i => nth i items VUndef
      | None => VUndef
      end
  | _ => VUndef
  end.

(** [Object.keys(v).length]; [Object.keys] throws a [TypeError] on
    [undefined] and [null] ([None]), lists nothing for a boolean or a number
    and lists the indices of a string or an array. *)
Definition object_keys_length (v : value) : option nat :=
  match v with
  | VUndef | VNull => None
  | VBool _ | VNum _ => Some 0
  | VStr s => Some (String.length s)
  | VObj props => Some (length props)
  | VArr items => Some (length items)
  end.

(** The own enumerable properties visited by [for (k in v)] with the
    [hasOwnProperty] filter. *)
Definition own_props (v : value) : list (string * value) :=
  match v with
  | VObj props => props
  | _ => []
  end.

(** ** Path addressing ([getIn], [setIn] of [./utils]) *)

Definition is_separator (c : ascii) : bool :=
  (Ascii.eqb c "."%char || Ascii.eqb c "["%char || Ascii.eqb c "]"%char)%bool.

Definition flush_segment (cur : string) : list string :=
  if String.eqb cur "" then [] else [cur].

Fixpoint split_path (cur : string) (s : string) : list string :=
  match s with
  | EmptyString => flush_segment cur
  | String c rest =>
      if is_separator c then flush_segment cur ++ split_path "" rest
      else split_path (cur ++ String c "") rest
  end.

(** Modelled from the spec: [toPath] is not part of [Formik.tsx]. A path is
    "a string identifying a location in a nested structure, e.g.
    address.street or items[2].name. Segments separate object-key and
    array-index access": the segments are the non-empty pieces between dots
    and brackets. *)
Definition toPath (path : string) : list string := split_path "" path.

Fixpoint getIn_segments (tree : value) (segments : list string) : value :=
  match segments with
  | [] => tree
  | k :: rest => getIn_segments (get_prop tree k) rest
  end.

(** Modelled from the spec: [getIn] is imported from [./utils], which is not
    part of [Formik.tsx]. "get(tree, path): resolves nested object keys and
    array indices; missing intermediate nodes yield undefined, never
    throw." *)
Definition getIn (tree : value) (path : string) : value :=
  getIn_segments tree (toPath path).

Definition is_container (v : value) : bool :=
  match v with VObj _ | VArr _ => true | _ => false end.

Definition fresh_container (next_segment : string) : value :=
  match array_index next_segment with
  | Some _ => VArr []
  | None => VObj []
  end.

(** Writing one property of a container copy. A key that is no index is
    not stored in an array; a primitive is replaced by a fresh object. *)
Definition set_prop (container : value) (k : string) (v : value) : value :=
  match container with
  | VObj props => VObj (obj_set k v props)
  | VArr items =>
      match array_index k with
      | Some i => VArr (arr_set i v items)
      | None => VArr items
      end
  | _ => VObj [(k, v)]
  end.

Fixpoint setIn_segments (tree : value) (segments : list string) (v : value)
  : value :=
  match segments with
  | [] => tree
  | k :: rest =>
      match rest with
      | [] => set_prop tree k v
      | next :: _ =>
          let child := get_prop tree k in
          let base := if is_container child then child else fresh_container next in
          set_prop tree k (setIn_segments base rest v)
      end
  end.

(** Modelled from the spec: [setIn] is imported from [./utils], which is not
    part of [Formik.tsx]. "set(tree, path, value): returns a new tree with
    the leaf at path replaced; all ancestor containers along the path are
    shallow-copied; intermediate containers are created as objects or arrays
    depending on whether the next path segment is numeric." *)
Definition setIn (tree : value) (path : string) (v : value) : value :=
  setIn_segments tree (toPath path) v.

(** Modelled from the spec: [setNestedObjectValues] is imported from
    [./utils]. "setNestedAllTrue(valueTree): recursively rebuilds
    valueTree's shape replacing every leaf with true." *)
Fixpoint setNestedObjectValues (tree : value) (leaf : value) : value :=
  match tree with
  | VObj props =>
      VObj (map (fun kv => (fst kv, setNestedObjectValues (snd kv) leaf)) props)
  | VArr items => VArr (map (fun x => setNestedObjectValues x leaf) items)
  | _ => leaf
  end.

(** [isEqual] of react-fast-compare: deep equality, where two objects are
    equal when they have as many keys and every key of the first is a key of
    the second with an equal value, whatever the order of the keys. *)
Fixpoint isEqual (a b : value) {struct a} : bool :=
  match a, b with
  | VUndef, VUndef => true
  | VNull, VNull => true
  | VBool x, VBool y => Bool.eqb x y
  | VNum x, VNum y => Z.eqb x y
  | VStr x, VStr y => String.eqb x y
  | VObj pa, VObj pb =>
      Nat.eqb (length pa) (length pb)
      && forallb
           (fun kv =>
              match obj_find (fst kv) pb with
              | Some w => isEqual (snd kv) w
              | None => false
              end) pa
  | VArr la, VArr lb =>
      (fix all2 (la lb : list value) {struct la} : bool :=
         match la, lb with
         | [], [] => true
         | x :: ra, y :: rb => isEqual x y && all2 ra rb
         | _, _ => false
         end) la lb
  | _, _ => false
  end.

(** A JavaScript object has no key twice; the values that stand for one
    are the ones with this property at every depth. *)
Fixpoint nodup_keys (keys : list string) : bool :=
  match keys with
  | [] => true
  | k :: rest => negb (existsb (String.eqb k) rest) && nodup_keys rest
  end.

Fixpoint unique_keys (v : value) : bool :=
  match v with
  | VObj props =>
      nodup_keys (map fst props) && forallb (fun kv => unique_keys (snd kv)) props
  | VArr items => forallb unique_keys items
  | _ => true
  end.

(** ** Promises and calls into user code

    A promise is identified with its eventual settlement. A call into a
    validator or a handler supplied by the user returns a plain value,
    returns a promise, or throws. *)

Inductive settled : Type :=
  | Fulfilled (v : value)
  | Rejected (reason : value).

Inductive jsresult : Type :=
  | Returns (v : value)
  | ReturnsPromise (p : settled)
  | Throws (e : value).

(** [new Promise(resolve => resolve(f(x)))] and [Promise.resolve(f(x))]
    inside a [then] callback: a returned promise is adopted, a throw
    rejects. *)
Definition promise_of_call (r : jsresult) : settled :=
  match r with
  | Returns v => Fulfilled v
  | ReturnsPromise p => p
  | Throws e => Rejected e
  end.

(** [p.then(x => x, e => e)] *)
Definition recover (p : settled) : settled :=
  match p with
  | Fulfilled x => Fulfilled x
  | Rejected e => Fulfilled e
  end.

(** [Promise.all]: the list of the values, or the first rejection. *)
Fixpoint promise_all (ps : list settled) : value + list value :=
  match ps with
  | [] => inr []
  | Fulfilled v :: rest =>
      match promise_all rest with
      | inr vs => inr (v :: vs)
      | inl e => inl e
      end
  | Rejected e :: _ => inl e
  end.

(** The value of a [TypeError] raised by the engine. *)
Definition type_error : value := VObj [].

(** ** The field-level source *)

(** A registered field component; only [props.validate] is read. The
    registry [this.fields] is kept as the list of its entries in the order
    [Object.keys] lists them. *)
Record FieldComp : Type := mkField {
  field_validate : option (value -> jsresult)
}.

Definition Fields := list (string * FieldComp).

Fixpoint fields_find (name : string) (fields : Fields) : option FieldComp :=
  match fields with
  | [] => None
  | (n, comp) :: rest => if String.eqb name n then Some comp else fields_find name rest
  end.

(** [this.fields[name] = Comp] *)
Fixpoint registerField_in (name : string) (comp : FieldComp) (fields : Fields)
  : Fields :=
  match fields with
  | [] => [(name, comp)]
  | (n, c) :: rest =>
      if String.eqb name n then (name, comp) :: rest
      else (n, c) :: registerField_in name comp rest
  end.

(** [delete this.fields[name]] *)
Definition unregisterField_in (name : string) (fields : Fields) : Fields :=
  List.filter (fun nc => negb (String.eqb name (fst nc))) fields.

Definition runSingleFieldLevelValidation
  (fields : Fields) (field : string) (v : value) : settled :=
  recover
    (match fields_find field fields with
     | Some comp =>
         match field_validate comp with
         | Some validate => promise_of_call (validate v)
         | None => Rejected type_error
         end
     | None => Rejected type_error
     end).

Definition SENTINEL : string := "DO_NOT_DELETE_YOU_WILL_BE_FIRED".

(** [curr === 'DO_NOT_DELETE_YOU_WILL_BE_FIRED'] *)
Definition is_sentinel (curr : value) : bool :=
  match curr with VStr s => String.eqb s SENTINEL | _ => false end.

Definition has_validate (fields : Fields) (f : string) : bool :=
  match fields_find f fields with
  | Some comp => match field_validate comp with Some _ => true | None => false end
  | None => false
  end.

Definition fieldKeysWithValidation (fields : Fields) : list string :=
  List.filter (has_validate fields) (map fst fields).

(** The callback given to [reduce] *)
Definition collect_field_error
  (keys : list string) (prev : value) (curr : value) (index : nat) : value :=
  if is_sentinel curr then prev
  else if truthy curr then setIn prev (nth index keys "") curr
  else prev.

(** [list.reduce((prev, curr, index) => .., init)] *)
Fixpoint reduce_indexed {A B : Type} (f : B -> A -> nat -> B)
  (l : list A) (index : nat) (acc : B) : B :=
  match l with
  | [] => acc
  | x :: rest => reduce_indexed f rest (S index) (f acc x index)
  end.

Definition fieldValidations (fields : Fields) (values : value) : list settled :=
  let keys := fieldKeysWithValidation fields in
  if 0 <? length keys
  then map (fun f => runSingleFieldLevelValidation fields f (getIn values f)) keys
  else [Fulfilled (VStr SENTINEL)].

Definition runFieldLevelValidations (fields : Fields) (values : value) : settled :=
  match promise_all (fieldValidations fields values) with
  | inr fieldErrorsList =>
      Fulfilled
        (reduce_indexed (collect_field_error (fieldKeysWithValidation fields))
           fieldErrorsList 0 (VObj []))
  | inl e => Rejected e
  end.

(** What a field validator reports: the value it returns or resolves to,
    or the value it throws or rejects with. A field without a validator
    raises a [TypeError] when it is called. *)
Definition field_outcome (r : jsresult) : value :=
  match r with
  | Returns v => v
  | ReturnsPromise (Fulfilled v) => v
  | ReturnsPromise (Rejected e) => e
  | Throws e => e
  end.

Definition reported (fields : Fields) (field : string) (v : value) : value :=
  match fields_find field fields with
  | Some comp =>
      match field_validate comp with
      | Some validate => field_outcome (validate v)
      | None => type_error
      end
  | None => type_error
  end.

(** The field-level error tree in the words of the specification: "collect
    results into an ErrorTree keyed by each field's path, via PathAddressing
    set; fields with falsy results contribute nothing", the sentinel being
    left out. *)
Definition spec_fieldErrors (fields : Fields) (values : value) : value :=
  fold_left
    (fun tree kv => setIn tree (fst kv) (snd kv))
    (List.filter (fun kv => truthy (snd kv) && negb (is_sentinel (snd kv)))
       (map (fun f => (f, reported fields f (getIn values f)))
          (fieldKeysWithValidation fields)))
    (VObj []).

(** ** The handler-level source *)

Definition runValidateHandler (validate : value -> jsresult) (values : value)
  : settled :=
  match validate values with
  | Throws e => Rejected e
  | Returns maybePromisedErrors =>
      if is_undefined maybePromisedErrors then Fulfilled (VObj [])
      else Fulfilled maybePromisedErrors
  | ReturnsPromise (Fulfilled _) => Fulfilled (VObj [])
  | ReturnsPromise (Rejected errors) => Fulfilled errors
  end.

(** ** The schema-level source *)

Record YupInner : Type := mkInner {
  inner_path : string;
  inner_message : value
}.

Record YupError : Type := mkYupError {
  yup_inner : list YupInner;
  yup_path : string;
  yup_message : value
}.

(** What [schema.validate(data, {abortEarly: false, context})] does. *)
Inductive yup_result : Type :=
  | YupValid (v : value)
  | YupInvalid (err : YupError)
  | YupThrows (e : value).

Definition Schema := value -> yup_result.

Definition yupToFormErrors (yupError : YupError) : value :=
  if length (yup_inner yupError) =? 0
  then setIn (VObj []) (yup_path yupError) (yup_message yupError)
  else
    fold_left
      (fun errors err =>
         if negb (truthy (get_prop errors (inner_path err)))
         then setIn errors (inner_path err) (inner_message err)
         else errors)
      (yup_inner yupError) (VObj []).

(** The loop that fills [validateData]; [values] is an object. *)
Definition validateData (values : value) : value :=
  VObj
    (fold_left
       (fun data kv =>
          obj_set (fst kv)
            (if negb (is_empty_string (snd kv)) then snd kv else VUndef) data)
       (own_props values) []).

(** [sync] is false and [context] is empty in the one call of this file. *)
Definition validateYupSchema (values : value) (schema : Schema) : yup_result :=
  schema (validateData values).

Definition runValidationSchema (validationSchema : Schema) (values : value)
  : settled :=
  match validateYupSchema values validationSchema with
  | YupValid _ => Fulfilled (VObj [])
  | YupInvalid err => Fulfilled (yupToFormErrors err)
  | YupThrows e => Rejected e
  end.

(** ** The three sources together

    The promises that [runValidations] hands to [Promise.all]; a source that
    is not configured contributes the empty object. [validationSchema] may
    be given as a function that returns the schema, which is then called
    first. *)
Definition validationSources
  (validationSchema : option Schema) (validate : option (value -> jsresult))
  (fields : Fields) (values : value) : list settled :=
  [runFieldLevelValidations fields values;
   match validationSchema with
   | Some schema => runValidationSchema schema values
   | None => Fulfilled (VObj [])
   end;
   match validate with
   | Some handler => runValidateHandler handler values
   | None => Fulfilled (VObj [])
   end].

(** The promise that [runValidations] makes cancelable. [deepmerge.all]
    with the [arrayMerge] option is the library's and is a parameter. *)
Definition mergedSources (deepmerge_all : list value -> value)
  (validationSchema : option Schema) (validate : option (value -> jsresult))
  (fields : Fields) (values : value) : settled :=
  match promise_all (validationSources validationSchema validate fields values) with
  | inr trees => Fulfilled (deepmerge_all trees)
  | inl e => Rejected e
  end.

(** Modelled from the spec: [makeCancelable] is imported from [./utils],
    which is not part of [Formik.tsx]. "Wraps a pending asynchronous
    computation with a cancellation flag. When the underlying computation
    finishes, if cancel() was called before completion, the result is
    silently dropped (neither the fulfillment nor the rejection path fires
    any observable effect). Otherwise the result is delivered normally."
    [None] is a wrapped promise that never settles. *)
Definition makeCancelable (hasCanceled : bool) (underlying : settled)
  : option settled :=
  if hasCanceled then None else Some underlying.

(** ** The component *)

Record FormikState : Type := mkState {
  values : value;
  errors : value;
  touched : value;
  isSubmitting : bool;
  isValidating : bool;
  submitCount : nat;
  status : value;
  error : value
}.

Module Props.
Record t : Type := mk {
  initialValues : value;
  initialStatus : value;
  validateOnChange : bool;
  validateOnBlur : bool;
  enableReinitialize : bool;
  validationSchema : option Schema;
  validate : option (value -> jsresult);
  onSubmit : value -> jsresult;
  onReset : option (value -> jsresult)
}.
End Props.

(** What is chained on the promise that [runValidations] returns: nothing
    (the callers that drop it), the callback of [validateForm], or the
    callback of [submitForm]. *)
Inductive continuation : Type :=
  | ThenNothing
  | ThenValidateForm
  | ThenSubmitForm.

Record Run : Type := mkRun {
  run_values : value;
  run_then : continuation
}.

(** The instance fields of the class come first. The remaining fields are
    the run-time around the instance: the [hasCanceled] flags of the
    cancelable tasks created so far, the promises that have not settled
    yet, the source of fresh identities for promises and closures, the calls
    made to [props.onSubmit] and the settlements handed to the callers of
    [runValidations], [validateForm], [submitForm] and [validateField]. *)
Record Formik : Type := mkFormik {
  props : Props.t;
  state : FormikState;
  initialValues : value;
  didMount : bool;
  hcCache : gmap string nat;
  hbCache : gmap string nat;
  fields : Fields;
  validator : option nat;
  hasCanceled : gset nat;
  runs : gmap nat Run;
  fieldRuns : gmap nat (string * settled);
  resets : gmap nat settled;
  fresh : nat;
  submitted : list value;
  resolved : list (nat * settled)
}.

Definition set_props x c := mkFormik x (state c) (initialValues c) (didMount c)
  (hcCache c) (hbCache c) (fields c) (validator c) (hasCanceled c) (runs c)
  (fieldRuns c) (resets c) (fresh c) (submitted c) (resolved c).
Definition set_state x c := mkFormik (props c) x (initialValues c) (didMount c)
  (hcCache c) (hbCache c) (fields c) (validator c) (hasCanceled c) (runs c)
  (fieldRuns c) (resets c) (fresh c) (submitted c) (resolved c).
Definition set_initialValues x c := mkFormik (props c) (state c) x (didMount c)
  (hcCache c) (hbCache c) (fields c) (validator c) (hasCanceled c) (runs c)
  (fieldRuns c) (resets c) (fresh c) (submitted c) (resolved c).
Definition set_didMount x c := mkFormik (props c) (state c) (initialValues c) x
  (hcCache c) (hbCache c) (fields c) (validator c) (hasCanceled c) (runs c)
  (fieldRuns c) (resets c) (fresh c) (submitted c) (resolved c).
Definition set_hcCache x c := mkFormik (props c) (state c) (initialValues c)
  (didMount c) x (hbCache c) (fields c) (validator c) (hasCanceled c) (runs c)
  (fieldRuns c) (resets c) (fresh c) (submitted c) (resolved c).
Definition set_hbCache x c := mkFormik (props c) (state c) (initialValues c)
  (didMount c) (hcCache c) x (fields c) (validator c) (hasCanceled c) (runs c)
  (fieldRuns c) (resets c) (fresh c) (submitted c) (resolved c).
Definition set_fields x c := mkFormik (props c) (state c) (initialValues c)
  (didMount c) (hcCache c) (hbCache c) x (validator c) (hasCanceled c) (runs c)
  (fieldRuns c) (resets c) (fresh c) (submitted c) (resolved c).
Definition set_validator x c := mkFormik (props c) (state c) (initialValues c)
  (didMount c) (hcCache c) (hbCache c) (fields c) x (hasCanceled c) (runs c)
  (fieldRuns c) (resets c) (fresh c) (submitted c) (resolved c).
Definition set_hasCanceled x c := mkFormik (props c) (state c) (initialValues c)
  (didMount c) (hcCache c) (hbCache c) (fields c) (validator c) x (runs c)
  (fieldRuns c) (resets c) (fresh c) (submitted c) (resolved c).
Definition set_runs x c := mkFormik (props c) (state c) (initialValues c)
  (didMount c) (hcCache c) (hbCache c) (fields c) (validator c) (hasCanceled c) x
  (fieldRuns c) (resets c) (fresh c) (submitted c) (resolved c).
Definition set_fieldRuns x c := mkFormik (props c) (state c) (initialValues c)
  (didMount c) (hcCache c) (hbCache c) (fields c) (validator c) (hasCanceled c)
  (runs c) x (resets c) (fresh c) (submitted c) (resolved c).
Definition set_resets x c := mkFormik (props c) (state c) (initialValues c)
  (didMount c) (hcCache c) (hbCache c) (fields c) (validator c) (hasCanceled c)
  (runs c) (fieldRuns c) x (fresh c) (submitted c) (resolved c).
Definition set_fresh x c := mkFormik (props c) (state c) (initialValues c)
  (didMount c) (hcCache c) (hbCache c) (fields c) (validator c) (hasCanceled c)
  (runs c) (fieldRuns c) (resets c) x (submitted c) (resolved c).
Definition set_submitted x c := mkFormik (props c) (state c) (initialValues c)
  (didMount c) (hcCache c) (hbCache c) (fields c) (validator c) (hasCanceled c)
  (runs c) (fieldRuns c) (resets c) (fresh c) x (resolved c).
Definition set_resolved x c := mkFormik (props c) (state c) (initialValues c)
  (didMount c) (hcCache c) (hbCache c) (fields c) (validator c) (hasCanceled c)
  (runs c) (fieldRuns c) (resets c) (fresh c) (submitted c) x.

Arguments set_props _ _ /.
Arguments set_state _ _ /.
Arguments set_initialValues _ _ /.
Arguments set_didMount _ _ /.
Arguments set_hcCache _ _ /.
Arguments set_hbCache _ _ /.
Arguments set_fields _ _ /.
Arguments set_validator _ _ /.
Arguments set_hasCanceled _ _ /.
Arguments set_runs _ _ /.
Arguments set_fieldRuns _ _ /.
Arguments set_resets _ _ /.
Arguments set_fresh _ _ /.
Arguments set_submitted _ _ /.
Arguments set_resolved _ _ /.

(** [this.setState(..)] is the write it asks for: the partial state is
    merged into [this.state] at once, and the callback given with it runs
    right after. *)
Definition setState (update : FormikState -> FormikState) (c : Formik) : Formik :=
  set_state (update (state c)) c.
Arguments setState _ _ /.

Definition with_values x s := mkState x (errors s) (touched s) (isSubmitting s)
  (isValidating s) (submitCount s) (status s) (error s).
Definition with_errors x s := mkState (values s) x (touched s) (isSubmitting s)
  (isValidating s) (submitCount s) (status s) (error s).
Definition with_touched x s := mkState (values s) (errors s) x (isSubmitting s)
  (isValidating s) (submitCount s) (status s) (error s).
Definition with_isSubmitting x s := mkState (values s) (errors s) (touched s) x
  (isValidating s) (submitCount s) (status s) (error s).
Definition with_isValidating x s := mkState (values s) (errors s) (touched s)
  (isSubmitting s) x (submitCount s) (status s) (error s).
Definition with_submitCount x s := mkState (values s) (errors s) (touched s)
  (isSubmitting s) (isValidating s) x (status s) (error s).
Definition with_status x s := mkState (values s) (errors s) (touched s)
  (isSubmitting s) (isValidating s) (submitCount s) x (error s).
Definition with_error x s := mkState (values s) (errors s) (touched s)
  (isSubmitting s) (isValidating s) (submitCount s) (status s) x.

Arguments with_values _ _ /.
Arguments with_errors _ _ /.
Arguments with_touched _ _ /.
Arguments with_isSubmitting _ _ /.
Arguments with_isValidating _ _ /.
Arguments with_submitCount _ _ /.
Arguments with_status _ _ /.
Arguments with_error _ _ /.

(** [props.initialValues || {}] *)
Definition or_empty_object (v : value) : value :=
  if truthy v then v else VObj [].

Definition constructor (p : Props.t) : Formik :=
  {| props := p;
     state :=
       {| values := or_empty_object (Props.initialValues p);
          errors := VObj [];
          touched := VObj [];
          isSubmitting := false;
          isValidating := false;
          submitCount := 0;
          status := Props.initialStatus p;
          error := VUndef |};
     initialValues := or_empty_object (Props.initialValues p);
     didMount := false;
     hcCache := ∅;
     hbCache := ∅;
     fields := [];
     validator := None;
     hasCanceled := ∅;
     runs := ∅;
     fieldRuns := ∅;
     resets := ∅;
     fresh := 0;
     submitted := [];
     resolved := [] |}.

(** *** Whole-form validation runs *)

(** The [cancel] closure of the task [id] sets its [hasCanceled] flag. *)
Definition cancel (id : nat) (c : Formik) : Formik :=
  set_hasCanceled ({[id]} ∪ hasCanceled c) c.

(** [runValidations]: the previous [cancel] is called, then the new task is
    created and its [cancel] stored in [this.validator]. The promise of the
    three sources merged by [deepmerge.all] (see [mergedSources]) stays
    pending in [runs] until its settlement arrives with the operation
    [SettleValidation], which carries it. *)
Definition runValidations (k : continuation) (vals : value) (c : Formik) : Formik :=
  let c1 := match validator c with
            | Some previous => cancel previous c
            | None => c
            end in
  let id := fresh c1 in
  set_validator (Some id)
    (set_runs (<[id := mkRun vals k]> (runs c1)) (set_fresh (S id) c1)).

(** The [then] callback of [runValidations], followed by [.catch(x => x)]:
    the value handed on is the error tree, or the rejection value. *)
Definition commitErrors (merged : settled) (c : Formik) : Formik * value :=
  match merged with
  | Fulfilled errs =>
      (if didMount c
       then setState (fun prevState =>
                        if negb (isEqual (errors prevState) errs)
                        then with_errors errs prevState
                        else prevState) c
       else c,
       errs)
  | Rejected x => (c, x)
  end.

(** The [actionBag] handed to the handler is the instance's own set of
    mutators; the call is recorded with the values it receives. *)
Definition executeSubmit (c : Formik) : Formik * jsresult :=
  (set_submitted (submitted c ++ [values (state c)]) c,
   Props.onSubmit (props c) (values (state c))).

Definition resolve (id : nat) (p : settled) (c : Formik) : Formik :=
  set_resolved (resolved c ++ [(id, p)]) c.

Definition clearValidating (c : Formik) : Formik :=
  if didMount c then setState (with_isValidating false) c else c.

(** The callbacks that [validateForm] and [submitForm] chain on the promise
    of [runValidations]. *)
Definition continue (k : continuation) (id : nat) (combinedErrors : value)
  (c : Formik) : Formik :=
  match k with
  | ThenNothing => resolve id (Fulfilled combinedErrors) c
  | ThenValidateForm => resolve id (Fulfilled combinedErrors) (clearValidating c)
  | ThenSubmitForm =>
      let c1 := clearValidating c in
      match object_keys_length combinedErrors with
      | None => resolve id (Rejected type_error) c1
      | Some 0 =>
          let (c2, result) := executeSubmit c1 in
          resolve id (promise_of_call result) c2
      | Some (S _) =>
          resolve id (Fulfilled VUndef)
            (if didMount c1 then setState (with_isSubmitting false) c1 else c1)
      end
  end.

(** The promise of the three merged sources of run [id] settles with
    [merged]. The flag is read then, and the callbacks chained on the
    wrapped promise run in the same step. *)
Definition settleValidation (id : nat) (merged : settled) (c : Formik) : Formik :=
  match runs c !! id with
  | None => c
  | Some run =>
      let c1 := set_runs (delete id (runs c)) c in
      match makeCancelable (bool_decide (id ∈ hasCanceled c1)) merged with
      | None => c1
      | Some delivered =>
          let (c2, combinedErrors) := commitErrors delivered c1 in
          continue (run_then run) id combinedErrors c2
      end
  end.

(** *** Life cycle *)

Definition registerField (name : string) (comp : FieldComp) (c : Formik) : Formik :=
  set_fields (registerField_in name comp (fields c)) c.

Definition unregisterField (name : string) (c : Formik) : Formik :=
  set_fields (unregisterField_in name (fields c)) c.

Definition componentDidMount (c : Formik) : Formik := set_didMount true c.

Definition componentWillUnmount (c : Formik) : Formik :=
  let c1 := set_didMount false c in
  match validator c1 with
  | Some running => cancel running c1
  | None => c1
  end.

(** *** Mutators *)

Definition setErrors (errs : value) (c : Formik) : Formik :=
  setState (with_errors errs) c.

Definition setTouched (t : value) (c : Formik) : Formik :=
  let c1 := setState (with_touched t) c in
  if Props.validateOnBlur (props c1)
  then runValidations ThenNothing (values (state c1)) c1
  else c1.

Definition setValues (vals : value) (c : Formik) : Formik :=
  let c1 := setState (with_values vals) c in
  if Props.validateOnChange (props c1)
  then runValidations ThenNothing vals c1
  else c1.

Definition setStatus (s : value) (c : Formik) : Formik :=
  setState (with_status s) c.

Definition setError (e : value) (c : Formik) : Formik :=
  setState (with_error e) c.

Definition setSubmitting (b : bool) (c : Formik) : Formik :=
  if didMount c then setState (with_isSubmitting b) c else c.

Definition validateField (field : string) (c : Formik) : Formik :=
  let c1 := setState (with_isValidating true) c in
  let p := runSingleFieldLevelValidation (fields c1) field
             (getIn (values (state c1)) field) in
  let id := fresh c1 in
  set_fieldRuns (<[id := (field, p)]> (fieldRuns c1)) (set_fresh (S id) c1).

(** The promise of [runSingleFieldLevelValidation] started by
    [validateField] settles. *)
Definition settleFieldValidation (id : nat) (c : Formik) : Formik :=
  match fieldRuns c !! id with
  | None => c
  | Some (field, p) =>
      let c1 := set_fieldRuns (delete id (fieldRuns c)) c in
      match p with
      | Fulfilled err =>
          resolve id (Fulfilled err)
            (if didMount c1
             then setState (fun s =>
                    with_isValidating false
                      (with_errors (setIn (errors s) field err) s)) c1
             else c1)
      | Rejected e => resolve id (Rejected e) c1
      end
  end.

(** [executeChange] once the field and the value have been read off the
    event (or the value has been given as it is). *)
Definition executeChange (field : string) (v : value) (c : Formik) : Formik :=
  if negb (String.eqb field "")
  then
    let c1 := setState (fun prevState =>
                with_values (setIn (values prevState) field v) prevState) c in
    if Props.validateOnChange (props c1)
    then runValidations ThenNothing (setIn (values (state c1)) field v) c1
    else c1
  else c.

(** [handleChange] given a path string: the handler of the path is taken
    from [hcCache], after a new closure has been stored there when the
    path has none. A closure is known by its identity. *)
Definition handleChange (path : string) (c : Formik) : Formik * nat :=
  match hcCache c !! path with
  | Some handler => (c, handler)
  | None =>
      let handler := fresh c in
      (set_hcCache (<[path := handler]> (hcCache c)) (set_fresh (S handler) c),
       handler)
  end.

Definition setFieldValue (field : string) (v : value) (shouldValidate : bool)
  (c : Formik) : Formik :=
  if didMount c
  then
    let c1 := setState (fun prevState =>
                with_values (setIn (values prevState) field v) prevState) c in
    if Props.validateOnChange (props c1) && shouldValidate
    then runValidations ThenNothing (values (state c1)) c1
    else c1
  else c.

Definition submitForm (c : Formik) : Formik :=
  let c1 := setState (fun prevState =>
              with_submitCount (submitCount prevState + 1)
                (with_isValidating true
                   (with_isSubmitting true
                      (with_touched
                         (setNestedObjectValues (values prevState) (VBool true))
                         prevState)))) c in
  runValidations ThenSubmitForm (values (state c1)) c1.

Definition handleSubmit (c : Formik) : Formik := submitForm c.

Definition executeBlur (field : string) (c : Formik) : Formik :=
  let c1 := setState (fun prevState =>
              with_touched (setIn (touched prevState) field (VBool true))
                prevState) c in
  if Props.validateOnBlur (props c1)
  then runValidations ThenNothing (values (state c1)) c1
  else c1.

Definition handleBlur (path : string) (c : Formik) : Formik * nat :=
  match hbCache c !! path with
  | Some handler => (c, handler)
  | None =>
      let handler := fresh c in
      (set_hbCache (<[path := handler]> (hbCache c)) (set_fresh (S handler) c),
       handler)
  end.

Definition setFieldTouched (field : string) (t : bool) (shouldValidate : bool)
  (c : Formik) : Formik :=
  let c1 := setState (fun prevState =>
              with_touched (setIn (touched prevState) field (VBool t))
                prevState) c in
  if Props.validateOnBlur (props c1) && shouldValidate
  then runValidations ThenNothing (values (state c1)) c1
  else c1.

Definition setFieldError (field : string) (message : value) (c : Formik) : Formik :=
  setState (fun prevState =>
              with_errors (setIn (errors prevState) field message) prevState) c.

Definition resetForm (nextValues : value) (c : Formik) : Formik :=
  let vals := if truthy nextValues then nextValues
              else Props.initialValues (props c) in
  let c1 := set_initialValues vals c in
  setState (fun _ =>
    {| values := vals;
       errors := VObj [];
       touched := VObj [];
       isSubmitting := false;
       isValidating := false;
       submitCount := 0;
       status := Props.initialStatus (props c1);
       error := VUndef |}) c1.

(** [handleReset]. A reset handler that returns a promise has [resetForm]
    chained on it; the promise stays in [resets] until it settles. A reset
    handler that throws leaves the instance as it is. *)
Definition handleReset (c : Formik) : Formik :=
  match Props.onReset (props c) with
  | Some onReset =>
      match onReset (values (state c)) with
      | ReturnsPromise maybePromisedOnReset =>
          let id := fresh c in
          set_resets (<[id := maybePromisedOnReset]> (resets c))
            (set_fresh (S id) c)
      | Returns _ => resetForm VUndef c
      | Throws _ => c
      end
  | None => resetForm VUndef c
  end.

(** The promise returned by the reset handler settles: [then(this.resetForm)]
    has no rejection callback. *)
Definition settleReset (id : nat) (c : Formik) : Formik :=
  match resets c !! id with
  | None => c
  | Some p =>
      let c1 := set_resets (delete id (resets c)) c in
      match p with
      | Fulfilled v => resetForm v c1
      | Rejected _ => c1
      end
  end.

Definition validateForm (vals : value) (c : Formik) : Formik :=
  let c1 := setState (with_isValidating true) c in
  runValidations ThenValidateForm vals c1.

(** New props arrive and [componentDidUpdate(prevProps)] runs. *)
Definition componentDidUpdate (nextProps : Props.t) (c : Formik) : Formik :=
  let prevProps := props c in
  let c1 := set_props nextProps c in
  if Props.enableReinitialize (props c1)
     && negb (isEqual (Props.initialValues prevProps)
                      (Props.initialValues (props c1)))
  then resetForm (Props.initialValues (props c1))
         (set_initialValues (Props.initialValues (props c1)) c1)
  else c1.

(** [dirty] of [getFormikComputedProps] *)
Definition dirty (c : Formik) : bool :=
  negb (isEqual (initialValues c) (values (state c))).

(** *** The operations of an instance and the settlements it receives

    [ExecuteChange] and [ExecuteBlur] are [executeChange] and [executeBlur]
    with the field and the value already read off the event; the callback
    that [setFormikState] passes on to [setState] is user code and is not
    part of the step. *)

Inductive event : Type :=
  | ComponentDidMount
  | ComponentWillUnmount
  | ComponentDidUpdate (nextProps : Props.t)
  | RegisterField (name : string) (comp : FieldComp)
  | UnregisterField (name : string)
  | SetErrors (errs : value)
  | SetTouched (t : value)
  | SetValues (vals : value)
  | SetStatus (s : value)
  | SetError (e : value)
  | SetSubmitting (b : bool)
  | SetFormikState (update : FormikState -> FormikState)
  | ValidateField (field : string)
  | ExecuteChange (field : string) (v : value)
  | HandleChange (path : string)
  | SetFieldValue (field : string) (v : value) (shouldValidate : bool)
  | SubmitForm
  | ExecuteBlur (field : string)
  | HandleBlur (path : string)
  | SetFieldTouched (field : string) (t : bool) (shouldValidate : bool)
  | SetFieldError (field : string) (message : value)
  | ResetForm (nextValues : value)
  | HandleReset
  | ValidateForm (vals : value)
  | SettleValidation (id : nat) (merged : settled)
  | SettleFieldValidation (id : nat)
  | SettleReset (id : nat).

Definition step (c : Formik) (e : event) : Formik :=
  match e with
  | ComponentDidMount => componentDidMount c
  | ComponentWillUnmount => componentWillUnmount c
  | ComponentDidUpdate nextProps => componentDidUpdate nextProps c
  | RegisterField name comp => registerField name comp c
  | UnregisterField name => unregisterField name c
  | SetErrors errs => setErrors errs c
  | SetTouched t => setTouched t c
  | SetValues vals => setValues vals c
  | SetStatus s => setStatus s c
  | SetError e => setError e c
  | SetSubmitting b => setSubmitting b c
  | SetFormikState update => setState update c
  | ValidateField field => validateField field c
  | ExecuteChange field v => executeChange field v c
  | HandleChange path => fst (handleChange path c)
  | SetFieldValue field v shouldValidate => setFieldValue field v shouldValidate c
  | SubmitForm => submitForm c
  | ExecuteBlur field => executeBlur field c
  | HandleBlur path => fst (handleBlur path c)
  | SetFieldTouched field t shouldValidate => setFieldTouched field t shouldValidate c
  | SetFieldError field message => setFieldError field message c
  | ResetForm nextValues => resetForm nextValues c
  | HandleReset => handleReset c
  | ValidateForm vals => validateForm vals c
  | SettleValidation id merged => settleValidation id merged c
  | SettleFieldValidation id => settleFieldValidation id c
  | SettleReset id => settleReset id c
  end.

Definition run (c : Formik) (es : list event) : Formik := fold_left step es c.

(** The instances that the operations can produce. *)
Definition reachable (c : Formik) : Prop :=
  exists p es, c = run (constructor p) es.


(** ** Computed props *)

(** [props.isInitialValid]: a flag, or a function of the props. *)
Inductive InitialValid : Type :=
  | InitialValidFlag (b : bool)
  | InitialValidFunction (f : Props.t -> bool).

Record ComputedProps : Type := mkComputed {
  computed_dirty : bool;
  computed_isValid : bool;
  computed_initialValues : value
}.

(** [Object.keys(v).length === 0], where [v] is not [undefined] or [null] *)
Definition has_no_keys (v : value) : bool :=
  match object_keys_length v with
  | Some 0 => true
  | _ => false
  end.

(** [getFormikComputedProps]. [isInitialValid] is read from the props; the
    record of the props above does not carry it and it is an argument
    here. [this.state.errors && ..] is taken by its truth value. *)
Definition getFormikComputedProps (isInitialValid : InitialValid) (c : Formik)
  : ComputedProps :=
  {| computed_dirty := dirty c;
     computed_isValid :=
       if dirty c
       then truthy (errors (state c)) && has_no_keys (errors (state c))
       else match isInitialValid with
            | InitialValidFlag b => b
            | InitialValidFunction f => f (props c)
            end;
     computed_initialValues := initialValues c |}.

(** ** The array merge given to deepmerge *)

(** [a === b] where [a] is a primitive: equal primitives of the same type.
    An object or an array is never strictly equal to a primitive. *)
Definition strictly_equal (a b : value) : bool :=
  match a, b with
  | VUndef, VUndef => true
  | VNull, VNull => true
  | VBool x, VBool y => Bool.eqb x y
  | VNum x, VNum y => Z.eqb x y
  | VStr x, VStr y => String.eqb x y
  | _, _ => false
  end.

(** [Array.isArray(e) ? [] : {}] *)
Definition emptyTarget (e : value) : value :=
  match e with
  | VArr _ => VArr []
  | _ => VObj []
  end.

(** The callback of [source.forEach] in [arrayMerge]. [deepmerge] is the
    library's function and is a parameter; [clone] is [options.clone !==
    false]; [options.isMergeableObject] is the library's default, which
    holds of objects and arrays. *)
Definition arrayMerge_element (deepmerge : value -> value -> value)
  (clone : bool) (target : list value)
  (destination : list value) (e : value) (i : nat) : list value :=
  if is_undefined (nth i destination VUndef)
  then
    let shouldClone := clone && is_container e in
    arr_set i (if shouldClone then deepmerge (emptyTarget e) e else e) destination
  else if is_container e
  then arr_set i (deepmerge (nth i target VUndef) e) destination
  else if negb (existsb (strictly_equal e) target)
  then (destination ++ [e])%list
  else destination.

Definition arrayMerge (deepmerge : value -> value -> value) (clone : bool)
  (target source : list value) : list value :=
  reduce_indexed (arrayMerge_element deepmerge clone target) source 0 target.

(** ** Bookkeeping of runs and closures *)

(** What an operation does to the pending runs, to [this.validator] and
    to the cancel flags. *)

Inductive runs_effect (c c' : Formik) : Prop :=
  | effect_keep :
      runs c' = runs c -> validator c' = validator c ->
      hasCanceled c' = hasCanceled c -> fresh c <= fresh c' ->
      runs_effect c c'
  | effect_settle (id : nat) :
      runs c' = delete id (runs c) -> validator c' = validator c ->
      hasCanceled c' = hasCanceled c -> fresh c' = fresh c ->
      runs_effect c c'
  | effect_start (r : Run) :
      runs c' = <[fresh c := r]> (runs c) ->
      validator c' = Some (fresh c) ->
      hasCanceled c' =
        match validator c with
        | Some previous => {[previous]} ∪ hasCanceled c
        | None => hasCanceled c
        end ->
      fresh c' = S (fresh c) ->
      runs_effect c c'
  | effect_unmount :
      runs c' = runs c -> validator c' = validator c ->
      hasCanceled c' =
        match validator c with
        | Some running => {[running]} ∪ hasCanceled c
        | None => hasCanceled c
        end ->
      fresh c' = fresh c ->
      runs_effect c c'.

(** The invariant of the bookkeeping.

    Identities below [fresh] are the ones handed out so far, and a pending
    run that is not the one [this.validator] cancels has been canceled. *)

Record wf (c : Formik) : Prop := mk_wf {
  wf_runs_fresh : forall id r, runs c !! id = Some r -> id < fresh c;
  wf_validator_fresh : forall id, validator c = Some id -> id < fresh c;
  wf_canceled_fresh : forall id, id ∈ hasCanceled c -> id < fresh c;
  wf_superseded : forall id r,
      runs c !! id = Some r -> validator c = Some id \/ id ∈ hasCanceled c
}.





(** What an operation does to the pending promises of [validateField]. *)
Inductive fieldRuns_effect (c c' : Formik) : Prop :=
  | fieldRuns_keep :
      fieldRuns c' = fieldRuns c -> fresh c <= fresh c' ->
      fieldRuns_effect c c'
  | fieldRuns_add (field : string) (p : settled) :
      fieldRuns c' = <[fresh c := (field, p)]> (fieldRuns c) ->
      fresh c' = S (fresh c) ->
      fieldRuns_effect c c'
  | fieldRuns_settle (id : nat) :
      fieldRuns c' = delete id (fieldRuns c) -> fresh c' = fresh c ->
      fieldRuns_effect c c'.

(** The pending promises of [validateField] have identities handed out in
    the past. *)
Definition fieldRuns_fresh (c : Formik) : Prop :=
  forall id entry, fieldRuns c !! id = Some entry -> id < fresh c.

(** Between two states of the array that [arrayMerge] builds: the defined
    slots are kept and the array has not shrunk. *)
Definition kept (a b : list value) : Prop :=
  length a <= length b
  /\ forall j, is_undefined (nth j a VUndef) = false ->
       nth j b VUndef = nth j a VUndef.

(** What the run [this.validator] refers to can still add to the calls of
    the submit handler: 1 when it is pending for a submission and not
    canceled, 0 otherwise. *)
Definition submission_pending (c : Formik) : nat :=
  match validator c with
  | Some id =>
      match runs c !! id with
      | Some r =>
          match run_then r with
          | ThenSubmitForm => if bool_decide (id ∈ hasCanceled c) then 0 else 1
          | _ => 0
          end
      | None => 0
      end
  | None => 0
  end.

Definition is_submitForm (e : event) : bool :=
  match e with SubmitForm => true | _ => false end.

(** The calls of [submitForm] among the operations. *)
Definition submitForm_calls (es : list event) : nat :=
  length (List.filter is_submitForm es).

(** The calls of the submit handler made so far, together with the one
    that the pending submission can still make. *)
Definition submissions (c : Formik) : nat :=
  length (submitted c) + submission_pending c.


(** ** Concrete instances used in the examples below *)

Definition sample_props : Props.t :=
  {| Props.initialValues := VObj [("email", VStr "")];
     Props.initialStatus := VUndef;
     Props.validateOnChange := true;
     Props.validateOnBlur := true;
     Props.enableReinitialize := false;
     Props.validationSchema := None;
     Props.validate := None;
     Props.onSubmit := fun vals => Returns (VStr "sent");
     Props.onReset := None |}.

Definition email_required : value := VObj [("email", VStr "Required")].


Definition one_run_pending : Formik :=
  run (constructor sample_props)
    [ComponentDidMount; ValidateForm (VObj [("email", VStr "")])].

Definition mounted : Formik := run (constructor sample_props) [ComponentDidMount].

(** A submission whose form is torn down while its validation is pending. *)
Definition unmounted_during_submit : Formik :=
  run (constructor sample_props)
    [ComponentDidMount; SubmitForm; ComponentWillUnmount].

(** A submission on an instance that [componentDidMount] has not reached. *)
Definition submitted_before_mount : Formik :=
  run (constructor sample_props) [SubmitForm].



(** Three registered fields: a validator that throws, a field without
    validator, and a validator that finds nothing wrong. *)
Definition sample_fields : Fields :=
  [("email", mkField (Some (fun v => Throws (VStr "Invalid email"))));
   ("phone", mkField None);
   ("name", mkField (Some (fun v => Returns VUndef)))].

Definition throwing_validator : value -> jsresult :=
  fun v => Throws (VStr "Invalid email").

(** A second run started while the first is pending. *)
Definition two_runs_started : Formik :=
  run (constructor sample_props)
    [ComponentDidMount; ValidateForm (VObj [("email", VStr "")]); SubmitForm].

(** New props with other initial values, for a form that reinitializes. *)
Definition reinitialize_props : Props.t :=
  {| Props.initialValues := VObj [("email", VStr "new@b.c")];
     Props.initialStatus := VStr "fresh";
     Props.validateOnChange := true;
     Props.validateOnBlur := true;
     Props.enableReinitialize := true;
     Props.validationSchema := None;
     Props.validate := None;
     Props.onSubmit := fun vals => Returns VUndef;
     Props.onReset := None |}.

(** A mounted form whose values have been changed, with the validation of
    the change pending. *)
Definition dirty_form_validating : Formik :=
  run (constructor sample_props)
    [ComponentDidMount; SetValues (VObj [("email", VStr "x")])].

(** A mounted form with the three sample fields registered. *)
Definition with_sample_fields : Formik :=
  run (constructor sample_props)
    [ComponentDidMount;
     RegisterField "email" (mkField (Some throwing_validator));
     RegisterField "phone" (mkField None);
     RegisterField "name" (mkField (Some (fun v => Returns VUndef)))].

(** ** Path addressing and deep equality on small inputs *)

Example toPath_nested : toPath "items[2].name" = ["items"; "2"; "name"].
Proof. reflexivity. Qed.

Example setIn_creates_array :
  setIn (VObj []) "items[1].name" (VStr "x")
  = VObj [("items", VArr [VUndef; VObj [("name", VStr "x")]])].
Proof. reflexivity. Qed.

Example getIn_missing : getIn (VObj [("a", VNum 1)]) "a.b.c" = VUndef.
Proof. reflexivity. Qed.

Example isEqual_key_order :
  isEqual (VObj [("a", VNum 1); ("b", VNum 2)])
          (VObj [("b", VNum 2); ("a", VNum 1)]) = true.
Proof. reflexivity. Qed.
(** * Properties *)

(** ** What an operation does to the bookkeeping of runs *)


Lemma runValidations_effect k vals c c0 :
  runs c0 = runs c -> validator c0 = validator c ->
  hasCanceled c0 = hasCanceled c -> fresh c0 = fresh c ->
  runs_effect c (runValidations k vals c0).
Proof.
  intros Hr Hv Hc Hf.
  apply (effect_start _ _ (mkRun vals k));
    unfold runValidations; destruct (validator c0) eqn:E; simpl;
    rewrite <- ?Hv, ?E, ?Hr, ?Hc, ?Hf; reflexivity.
Qed.

Lemma resetForm_keep v c :
  runs (resetForm v c) = runs c /\ validator (resetForm v c) = validator c
  /\ hasCanceled (resetForm v c) = hasCanceled c
  /\ fresh (resetForm v c) = fresh c
  /\ hcCache (resetForm v c) = hcCache c.
Proof. repeat split. Qed.

Lemma continue_keep k id r c :
  runs (continue k id r c) = runs c
  /\ validator (continue k id r c) = validator c
  /\ hasCanceled (continue k id r c) = hasCanceled c
  /\ fresh (continue k id r c) = fresh c
  /\ hcCache (continue k id r c) = hcCache c.
Proof.
  unfold continue, clearValidating, executeSubmit, resolve.
  destruct k; simpl;
    [| destruct (didMount c)
     | destruct (object_keys_length r) as [[|n]|]; destruct (didMount c) eqn:E];
    simpl; rewrite ?E; repeat split; reflexivity.
Qed.

Lemma commitErrors_keep merged c :
  runs (fst (commitErrors merged c)) = runs c
  /\ validator (fst (commitErrors merged c)) = validator c
  /\ hasCanceled (fst (commitErrors merged c)) = hasCanceled c
  /\ fresh (fst (commitErrors merged c)) = fresh c
  /\ hcCache (fst (commitErrors merged c)) = hcCache c.
Proof.
  destruct merged; simpl; [destruct (didMount c) |]; repeat split; reflexivity.
Qed.

Lemma settleValidation_effect id merged c :
  runs_effect c (settleValidation id merged c).
Proof.
  unfold settleValidation.
  destruct (runs c !! id) as [r|] eqn:E; [| apply effect_keep; auto].
  unfold makeCancelable.
  destruct (bool_decide _).
  - apply (effect_settle _ _ id); reflexivity.
  - destruct (commitErrors merged _) as [c2 errs] eqn:Ec.
    pose proof (commitErrors_keep merged (set_runs (delete id (runs c)) c)) as Hk.
    rewrite Ec in Hk; simpl in Hk.
    pose proof (continue_keep (run_then r) id errs c2) as Hc.
    apply (effect_settle _ _ id); intuition congruence.
Qed.

Ltac keep := solve [apply effect_keep; simpl; auto with lia].
Ltac start := apply runValidations_effect; reflexivity.

Lemma step_effect c e : runs_effect c (step c e).
Proof.
  destruct e; simpl;
    try (unfold componentDidMount, registerField, unregisterField, setErrors,
           setStatus, setError, setFieldError, resetForm, validateField; keep).
  - unfold componentWillUnmount; simpl.
    apply effect_unmount; destruct (validator c); reflexivity.
  - unfold componentDidUpdate, resetForm.
    destruct (_ && _); keep.
  - unfold setTouched. destruct (Props.validateOnBlur _); [start | keep].
  - unfold setValues. destruct (Props.validateOnChange _); [start | keep].
  - unfold setSubmitting. destruct (didMount c); keep.
  - unfold executeChange. destruct (negb _); [| keep].
    destruct (Props.validateOnChange _); [start | keep].
  - unfold handleChange. destruct (hcCache c !! path); keep.
  - unfold setFieldValue. destruct (didMount c); [| keep].
    destruct (_ && _); [start | keep].
  - unfold submitForm. start.
  - unfold executeBlur. destruct (Props.validateOnBlur _); [start | keep].
  - unfold handleBlur. destruct (hbCache c !! path); keep.
  - unfold setFieldTouched. destruct (_ && _); [start | keep].
  - unfold handleReset, resetForm.
    destruct (Props.onReset _) as [f|]; [destruct (f _) |]; keep.
  - unfold validateForm. start.
  - apply settleValidation_effect.
  - unfold settleFieldValidation, resolve.
    destruct (fieldRuns c !! id) as [[f [err|e]]|]; simpl;
      [destruct (didMount c) | |]; keep.
  - unfold settleReset, resetForm.
    destruct (resets c !! id) as [[v|r]|]; keep.
Qed.


Lemma wf_constructor p : wf (constructor p).
Proof.
  split; simpl; intros; try discriminate; try set_solver.
  all: rewrite lookup_empty in *; discriminate.
Qed.

Lemma wf_effect c c' : runs_effect c c' -> wf c -> wf c'.
Proof.
  intros He [H1 H2 H3 H4].
  destruct He as [Hr Hv Hcan Hf | id Hr Hv Hcan Hf | r Hr Hv Hcan Hf | Hr Hv Hcan Hf];
    split; rewrite ?Hr, ?Hv, ?Hcan, ?Hf.
  - intros id r E. apply H1 in E. lia.
  - intros id E. apply H2 in E. lia.
  - intros id E. apply H3 in E. lia.
  - exact H4.
  - intros i r E. apply lookup_delete_Some in E as [_ E]. eauto.
  - exact H2.
  - exact H3.
  - intros i r E. apply lookup_delete_Some in E as [_ E]. eauto.
  - intros i r' E. apply lookup_insert_Some in E as [[<- _] | [_ E]];
      [lia | apply H1 in E; lia].
  - intros i [= <-]. lia.
  - intros i E. destruct (validator c) as [p|] eqn:Ev.
    + apply elem_of_union in E as [E | E].
      * apply elem_of_singleton in E as ->. specialize (H2 p eq_refl). lia.
      * apply H3 in E. lia.
    + apply H3 in E. lia.
  - intros i r' E. apply lookup_insert_Some in E as [[<- _] | [Hne E]];
      [left; reflexivity | right].
    destruct (H4 _ _ E) as [Hv' | Hcan']; rewrite ?Hv'; [set_solver |].
    destruct (validator c); set_solver.
  - exact H1.
  - exact H2.
  - intros i E. destruct (validator c) as [p|] eqn:Ev.
    + apply elem_of_union in E as [E | E].
      * apply elem_of_singleton in E as ->. auto.
      * auto.
    + auto.
  - intros i r E. destruct (H4 _ _ E) as [Hv' | Hcan']; [left; exact Hv' |].
    right. destruct (validator c); set_solver.
Qed.

Lemma wf_step c e : wf c -> wf (step c e).
Proof. apply wf_effect, step_effect. Qed.

Lemma wf_run es : forall c, wf c -> wf (run c es).
Proof.
  induction es as [|e es IH]; intros c Hcan; [exact Hcan |].
  apply IH, wf_step, Hcan.
Qed.

Lemma wf_reachable c : reachable c -> wf c.
Proof. intros (p & es & ->). apply wf_run, wf_constructor. Qed.

Lemma run_app c es1 es2 : run c (es1 ++ es2)%list = run (run c es1) es2.
Proof. apply fold_left_app. Qed.

Lemma reachable_step c e : reachable c -> reachable (step c e).
Proof.
  intros (p & es & ->). exists p, (es ++ [e])%list. rewrite run_app. reflexivity.
Qed.


(** A cancellation is never undone. *)
Lemma canceled_effect c c' id :
  runs_effect c c' -> id ∈ hasCanceled c -> id ∈ hasCanceled c'.
Proof.
  intros [? ? Hcan ? | ? ? ? Hcan ? | ? ? ? Hcan ? | ? ? Hcan ?] Hin; rewrite Hcan;
    try exact Hin; destruct (validator c); set_solver.
Qed.

Lemma canceled_run es : forall c id,
  id ∈ hasCanceled c -> id ∈ hasCanceled (run c es).
Proof.
  induction es as [|e es IH]; intros c id Hin; [exact Hin |].
  apply IH, (canceled_effect c), Hin. apply step_effect.
Qed.

Lemma set_runs_same c : set_runs (runs c) c = c.
Proof. destruct c; reflexivity. Qed.

(** The settlement of a canceled run only retires its pending promise. *)
Lemma settle_canceled id merged c :
  id ∈ hasCanceled c ->
  settleValidation id merged c = set_runs (delete id (runs c)) c.
Proof.
  intros Hin. unfold settleValidation.
  destruct (runs c !! id) eqn:E.
  - simpl. rewrite bool_decide_eq_true_2 by exact Hin. reflexivity.
  - rewrite delete_id by exact E. symmetry. apply set_runs_same.
Qed.

(** An operation that adds a pending run is a call of [runValidations]:
    the new run is the one [this.validator] now cancels, and every run that
    was pending has its flag set. *)
Lemma started_run c e b :
  wf c ->
  runs c !! b = None -> is_Some (runs (step c e) !! b) ->
  validator (step c e) = Some b
  /\ forall a, is_Some (runs c !! a) -> a ∈ hasCanceled (step c e).
Proof.
  intros Hwf Hnone [r Hsome].
  destruct (step_effect c e) as [Hr Hv Hcan Hf | id Hr Hv Hcan Hf | r' Hr Hv Hcan Hf | Hr Hv Hcan Hf].
  - rewrite Hr in Hsome. congruence.
  - rewrite Hr in Hsome. apply lookup_delete_Some in Hsome as [_ E]. congruence.
  - rewrite Hr in Hsome.
    apply lookup_insert_Some in Hsome as [[<- _] | [_ E]]; [| congruence].
    split; [exact Hv |].
    intros a [ra Ha]. rewrite Hcan.
    destruct (wf_superseded c Hwf _ _ Ha) as [Hva | Hca].
    + rewrite Hva. set_solver.
    + destruct (validator c); set_solver.
  - rewrite Hr in Hsome. congruence.
Qed.

(** ** Deep equality and reading by path *)

Lemma getIn_segments_undefined segs : getIn_segments VUndef segs = VUndef.
Proof. induction segs as [|k r IH]; [reflexivity | exact IH]. Qed.

Lemma isEqual_string a s : isEqual a (VStr s) = true -> a = VStr s.
Proof.
  destruct a; simpl; try discriminate.
  intros E. apply String.eqb_eq in E. congruence.
Qed.

Lemma obj_find_In k props v : obj_find k props = Some v -> In (k, v) props.
Proof.
  induction props as [|[k' v'] rest IH]; simpl; [discriminate |].
  destruct (String.eqb k k') eqn:E.
  - intros [= ->]. apply String.eqb_eq in E as ->. left; reflexivity.
  - intros H. right. exact (IH H).
Qed.

Lemma obj_find_key k props :
  In k (map fst props) -> exists v, obj_find k props = Some v.
Proof.
  induction props as [|[k' v'] rest IH]; simpl; [intros [] |].
  destruct (String.eqb k k') eqn:E; [eauto |].
  intros [-> | H]; [| exact (IH H)].
  rewrite String.eqb_refl in E. discriminate.
Qed.

Lemma nodup_keys_NoDup keys : nodup_keys keys = true -> List.NoDup keys.
Proof.
  induction keys as [|k rest IH]; simpl; [constructor |].
  intros H. apply andb_prop in H as [Hk Hrest].
  constructor; [| exact (IH Hrest)].
  intros Hin. apply negb_true_iff in Hk.
  assert (existsb (String.eqb k) rest = true) as E
    by (apply existsb_exists; exists k; split; [exact Hin | apply String.eqb_refl]).
  congruence.
Qed.

(** Two objects found equal have the same keys, and equal values under
    each of them. *)
Lemma isEqual_objects_find pa pb k w :
  nodup_keys (map fst pa) = true ->
  isEqual (VObj pa) (VObj pb) = true ->
  obj_find k pb = Some w ->
  exists v, obj_find k pa = Some v /\ In (k, v) pa /\ isEqual v w = true.
Proof.
  intros Hnd Heq Hfind. simpl in Heq.
  apply andb_prop in Heq as [Hlen Hall].
  apply Nat.eqb_eq in Hlen.
  rewrite forallb_forall in Hall.
  assert (Hincl : incl (map fst pa) (map fst pb)).
  { intros x Hx. apply in_map_iff in Hx as ([x' v] & <- & Hin).
    specialize (Hall _ Hin). simpl in Hall.
    destruct (obj_find x' pb) as [w'|] eqn:E; [| discriminate].
    apply obj_find_In in E. apply in_map_iff. exists (x', w'). auto. }
  assert (Hback : incl (map fst pb) (map fst pa)).
  { apply List.NoDup_length_incl;
      [apply nodup_keys_NoDup, Hnd | rewrite !length_map; lia | exact Hincl]. }
  assert (Hk : In k (map fst pa)).
  { apply Hback, in_map_iff. exists (k, w). split; [reflexivity |].
    apply obj_find_In, Hfind. }
  destruct (obj_find_key _ _ Hk) as [v Hv].
  exists v. split; [exact Hv |].
  pose proof (obj_find_In _ _ _ Hv) as Hin. split; [exact Hin |].
  specialize (Hall _ Hin). simpl in Hall. rewrite Hfind in Hall. exact Hall.
Qed.

Lemma isEqual_arrays_nth la : forall lb i,
  isEqual (VArr la) (VArr lb) = true ->
  isEqual (nth i la VUndef) (nth i lb VUndef) = true.
Proof.
  induction la as [|x ra IH]; intros [|y rb] i H; simpl in H; try discriminate.
  - destruct i; reflexivity.
  - apply andb_prop in H as [Hxy Hrest].
    destruct i; simpl; [exact Hxy | apply IH; exact Hrest].
Qed.

Lemma unique_keys_nth items i :
  forallb unique_keys items = true -> unique_keys (nth i items VUndef) = true.
Proof.
  revert i. induction items as [|x r IH]; intros [|i] H; simpl in *;
    try reflexivity; apply andb_prop in H as [Hx Hr]; auto.
Qed.

Lemma isEqual_get_prop a b k :
  unique_keys a = true -> isEqual a b = true ->
  get_prop b k = VUndef
  \/ (unique_keys (get_prop a k) = true
      /\ isEqual (get_prop a k) (get_prop b k) = true).
Proof.
  intros Hu Heq.
  destruct a as [| | | | |pa|la], b as [| | | | |pb|lb];
    simpl in Heq; try discriminate; try (left; reflexivity).
  - (* objects *)
    simpl. destruct (obj_find k pb) as [w|] eqn:E; [| left; reflexivity].
    right. simpl in Hu. apply andb_prop in Hu as [Hnd Hall].
    destruct (isEqual_objects_find pa pb k w Hnd Heq E) as (v & Hv & Hin & Hvw).
    rewrite Hv. simpl. split; [| exact Hvw].
    rewrite forallb_forall in Hall. exact (Hall _ Hin).
  - (* arrays *)
    simpl. destruct (array_index k) as [i|]; [| left; reflexivity].
    right. split; [apply unique_keys_nth, Hu |].
    apply isEqual_arrays_nth. exact Heq.
Qed.

(** A string found at a path of one tree is found at that path of every
    tree that [isEqual] finds equal to it. *)
Lemma isEqual_getIn_string segs : forall a b s,
  unique_keys a = true -> isEqual a b = true ->
  getIn_segments b segs = VStr s -> getIn_segments a segs = VStr s.
Proof.
  induction segs as [|k rest IH]; intros a b s Hu Heq Hget; simpl in *.
  - subst b. apply isEqual_string, Heq.
  - destruct (isEqual_get_prop a b k Hu Heq) as [Hundef | [Hu' Heq']].
    + rewrite Hundef, getIn_segments_undefined in Hget. discriminate.
    + exact (IH _ _ _ Hu' Heq' Hget).
Qed.

(** A run that nothing supersedes does commit its result. *)
Example lone_run_commits :
  let c := run (constructor sample_props)
             [ComponentDidMount; ValidateForm (VObj [("email", VStr "")]);
              SettleValidation 0 (Fulfilled email_required)] in
  errors (state c) = email_required
  /\ isValidating (state c) = false
  /\ resolved c = [(0, Fulfilled email_required)].
Proof. vm_compute. repeat split. Qed.

(** ** Superseded runs *)

(** C1. When an operation starts a whole-form validation run B while a run A
    is still pending, A's cancel flag is set by that operation and B is the
    run [this.validator] refers to; from then on, whatever operations and
    settlements follow and in whatever order, the settlement of A changes
    nothing but the retirement of A's pending promise: neither [errors] nor
    [isValidating] nor anything else of the instance is written from it. *)
Theorem newer_run_supersedes_pending_run c e a b :
  reachable c ->
  is_Some (runs c !! a) ->
  runs c !! b = None ->
  is_Some (runs (step c e) !! b) ->
  a ∈ hasCanceled (step c e)
  /\ validator (step c e) = Some b
  /\ forall es merged,
       a ∈ hasCanceled (run (step c e) es)
       /\ step (run (step c e) es) (SettleValidation a merged)
          = set_runs (delete a (runs (run (step c e) es))) (run (step c e) es).
Proof.
  intros Hreach Ha Hb Hstart.
  destruct (started_run c e b (wf_reachable c Hreach) Hb Hstart) as [Hv Hall].
  pose proof (Hall a Ha) as Hcanceled.
  split; [exact Hcanceled | split; [exact Hv |]].
  intros es merged.
  pose proof (canceled_run es _ _ Hcanceled) as Hlater.
  split; [exact Hlater |].
  simpl. apply settle_canceled, Hlater.
Qed.

Lemma newer_run_supersedes_pending_run_witness :
  (reachable one_run_pending
   /\ is_Some (runs one_run_pending !! 0)
   /\ runs one_run_pending !! 1 = None
   /\ is_Some (runs (step one_run_pending SubmitForm) !! 1))
  /\ (0 ∈ hasCanceled (step one_run_pending SubmitForm)
      /\ validator (step one_run_pending SubmitForm) = Some 1
      /\ forall es merged,
           0 ∈ hasCanceled (run (step one_run_pending SubmitForm) es)
           /\ step (run (step one_run_pending SubmitForm) es)
                (SettleValidation 0 merged)
              = set_runs
                  (delete 0 (runs (run (step one_run_pending SubmitForm) es)))
                  (run (step one_run_pending SubmitForm) es)).
Proof.
  set (c := one_run_pending).
  assert (H1 : reachable c) by (eexists _, _; reflexivity).
  assert (H2 : is_Some (runs c !! 0)) by (eexists; vm_compute; reflexivity).
  assert (H3 : runs c !! 1 = None) by (vm_compute; reflexivity).
  assert (H4 : is_Some (runs (step c SubmitForm) !! 1))
    by (eexists; vm_compute; reflexivity).
  split; [repeat split; assumption |].
  exact (newer_run_supersedes_pending_run c SubmitForm 0 1 H1 H2 H3 H4).
Defined.

(** Whatever the order of completion: B first, then A. *)
Example stale_run_after_newer_run :
  let c := run (constructor sample_props)
             [ComponentDidMount;
              ValidateForm (VObj [("email", VStr "")]);
              ValidateForm (VObj [("email", VStr "a@b.c")]);
              SettleValidation 1 (Fulfilled (VObj []));
              SettleValidation 0 (Fulfilled email_required)] in
  errors (state c) = VObj [] /\ resolved c = [(1, Fulfilled (VObj []))].
Proof. vm_compute. split; reflexivity. Qed.

(** A first, then B. *)
Example stale_run_before_newer_run :
  let c := run (constructor sample_props)
             [ComponentDidMount;
              ValidateForm (VObj [("email", VStr "")]);
              ValidateForm (VObj [("email", VStr "a@b.c")]);
              SettleValidation 0 (Fulfilled email_required)] in
  errors (state c) = VObj [] /\ isValidating (state c) = true /\ resolved c = [].
Proof. vm_compute. repeat split. Qed.

(** ** Delivery of a validation result *)

Lemma fresh_effect c c' : runs_effect c c' -> fresh c <= fresh c'.
Proof. intros [_ _ _ Hf | _ _ _ _ Hf | _ _ _ _ Hf | _ _ _ Hf]; lia. Qed.

(** An identity is used once: a run that is no longer pending does not
    come back. *)
Lemma retired_effect c c' id :
  runs_effect c c' -> id < fresh c -> runs c !! id = None ->
  runs c' !! id = None.
Proof.
  intros [Hr _ _ _ | i Hr _ _ _ | r' Hr _ _ _ | Hr _ _ _] Hlt Hid; rewrite Hr.
  - exact Hid.
  - apply lookup_delete_None. right; exact Hid.
  - rewrite lookup_insert_ne by lia. exact Hid.
  - exact Hid.
Qed.

Lemma retired_run es : forall c id,
  id < fresh c -> runs c !! id = None -> runs (run c es) !! id = None.
Proof.
  induction es as [|e es IH]; intros c id Hlt Hid; [exact Hid |].
  simpl. pose proof (step_effect c e) as He.
  apply IH; [pose proof (fresh_effect _ _ He); lia |].
  exact (retired_effect _ _ _ He Hlt Hid).
Qed.

(** A pending run keeps the values and the continuation it was started
    with. *)
Lemma runs_stable_effect c c' id r :
  wf c -> runs_effect c c' -> runs c !! id = Some r ->
  runs c' !! id = Some r \/ runs c' !! id = None.
Proof.
  intros Hwf [Hr _ _ _ | i Hr _ _ _ | r' Hr _ _ _ | Hr _ _ _] Hid; rewrite Hr.
  - left; exact Hid.
  - destruct (decide (i = id)) as [-> | Hne].
    + right. apply lookup_delete_eq.
    + left. rewrite lookup_delete_ne by exact Hne. exact Hid.
  - left. rewrite lookup_insert_ne; [exact Hid |].
    pose proof (wf_runs_fresh c Hwf _ _ Hid). lia.
  - left; exact Hid.
Qed.

Lemma runs_stable_run es : forall c id r,
  wf c -> runs c !! id = Some r ->
  runs (run c es) !! id = Some r \/ runs (run c es) !! id = None.
Proof.
  induction es as [|e es IH]; intros c id r Hwf Hid; [left; exact Hid |].
  simpl. pose proof (step_effect c e) as He.
  destruct (runs_stable_effect c (step c e) id r Hwf He Hid) as [Hkeep | Hgone].
  - apply IH; [apply wf_step, Hwf | exact Hkeep].
  - right. apply retired_run; [| exact Hgone].
    pose proof (wf_runs_fresh c Hwf _ _ Hid).
    pose proof (fresh_effect _ _ He). lia.
Qed.

Lemma wf_setState f c : wf c -> wf (setState f c).
Proof. intros [H1 H2 H3 H4]. split; assumption. Qed.

(** The run that [runValidations] starts is pending under the identity
    [fresh c], and it is the one [this.validator] cancels. *)
Lemma runValidations_started k vals c :
  runs (runValidations k vals c) !! fresh c = Some (mkRun vals k)
  /\ validator (runValidations k vals c) = Some (fresh c).
Proof.
  unfold runValidations. destruct (validator c); simpl;
    rewrite lookup_insert_eq; split; reflexivity.
Qed.

(** What the settlement of a pending run that has not been canceled
    does. *)
Lemma settle_delivered id merged c r :
  runs c !! id = Some r -> id ∉ hasCanceled c ->
  settleValidation id merged c
  = let c1 := set_runs (delete id (runs c)) c in
    continue (run_then r) id (snd (commitErrors merged c1))
      (fst (commitErrors merged c1)).
Proof.
  intros Hr Hnc. unfold settleValidation. rewrite Hr. simpl.
  rewrite bool_decide_eq_false_2 by exact Hnc. simpl.
  destruct (commitErrors merged _); reflexivity.
Qed.

(** What the [then] callback of [runValidations] leaves in [errors] on a
    mounted instance: every message of the delivered tree, at its path. *)
Lemma commitErrors_stored errs c path message :
  didMount c = true ->
  unique_keys (errors (state c)) = true ->
  getIn errs path = VStr message ->
  getIn (errors (state (fst (commitErrors (Fulfilled errs) c)))) path
  = VStr message.
Proof.
  intros Hm Hu Hget. simpl. rewrite Hm. simpl.
  destruct (isEqual (errors (state c)) errs) eqn:E; simpl; [| exact Hget].
  exact (isEqual_getIn_string _ _ _ _ Hu E Hget).
Qed.

Lemma commitErrors_rest merged c :
  let c' := fst (commitErrors merged c) in
  values (state c') = values (state c)
  /\ touched (state c') = touched (state c)
  /\ isSubmitting (state c') = isSubmitting (state c)
  /\ isValidating (state c') = isValidating (state c)
  /\ submitCount (state c') = submitCount (state c)
  /\ didMount c' = didMount c
  /\ props c' = props c
  /\ submitted c' = submitted c
  /\ resolved c' = resolved c.
Proof.
  destruct merged as [errs | x]; simpl; [| repeat split].
  destruct (didMount c) eqn:Hm; simpl; [| rewrite Hm; repeat split].
  destruct (isEqual _ _); simpl; rewrite ?Hm; repeat split.
Qed.

Lemma commitErrors_value errs c : snd (commitErrors (Fulfilled errs) c) = errs.
Proof. reflexivity. Qed.

Lemma submitForm_run_pending c es :
  reachable c ->
  is_Some (runs (run (submitForm c) es) !! fresh c) ->
  runs (run (submitForm c) es) !! fresh c
  = Some (mkRun (values (state c)) ThenSubmitForm).
Proof.
  intros Hreach [r Hr].
  assert (Hwf : wf (submitForm c))
    by exact (wf_reachable _ (reachable_step c SubmitForm Hreach)).
  assert (Hstart : runs (submitForm c) !! fresh c
                   = Some (mkRun (values (state c)) ThenSubmitForm))
    by exact (proj1 (runValidations_started ThenSubmitForm _ (setState _ c))).
  destruct (runs_stable_run es _ _ _ Hwf Hstart) as [H | H]; [exact H |].
  congruence.
Qed.

(** ** Submission *)

(** C3 (as amended). [submitForm()] increments [submitCount] by one and
    invokes nothing. When the result of its validation run is delivered (the
    run is still pending and has not been canceled by a newer run or by
    teardown) to a mounted instance and the merged tree has at least one
    top-level key: every message of the merged tree is in [errors] at its
    path, the submit handler is not invoked, [isSubmitting] and
    [isValidating] are false, [submitCount] is left as it is, and the
    promise of [submitForm()] is fulfilled with [undefined]. The [errors]
    object that the callback compares with the merged tree is a JavaScript
    object: it has no key twice. *)
Theorem submitForm_with_errors c es merged n :
  reachable c ->
  is_Some (runs (run (submitForm c) es) !! fresh c) ->
  fresh c ∉ hasCanceled (run (submitForm c) es) ->
  didMount (run (submitForm c) es) = true ->
  unique_keys (errors (state (run (submitForm c) es))) = true ->
  object_keys_length merged = Some (S n) ->
  let c1 := run (submitForm c) es in
  let c2 := step c1 (SettleValidation (fresh c) (Fulfilled merged)) in
  validator (submitForm c) = Some (fresh c)
  /\ submitCount (state (submitForm c)) = submitCount (state c) + 1
  /\ submitted (submitForm c) = submitted c
  /\ (forall path message,
        getIn merged path = VStr message ->
        getIn (errors (state c2)) path = VStr message)
  /\ submitted c2 = submitted c1
  /\ isSubmitting (state c2) = false
  /\ isValidating (state c2) = false
  /\ submitCount (state c2) = submitCount (state c1)
  /\ resolved c2 = (resolved c1 ++ [(fresh c, Fulfilled VUndef)])%list.
Proof.
  intros Hreach Hpending Hnc Hm Hu Hkeys c1 c2.
  pose proof (submitForm_run_pending c es Hreach Hpending) as Hrun.
  fold c1 in Hrun, Hnc, Hm, Hu.
  split; [exact (proj2 (runValidations_started ThenSubmitForm _ (setState _ c))) |].
  split; [unfold submitForm, runValidations; simpl;
          destruct (validator c); reflexivity |].
  split; [unfold submitForm, runValidations; simpl;
          destruct (validator c); reflexivity |].
  subst c2. unfold step. rewrite (settle_delivered _ _ _ _ Hrun Hnc).
  cbv zeta. simpl run_then.
  set (c0 := set_runs (delete (fresh c) (runs c1)) c1).
  assert (Hm0 : didMount c0 = true) by exact Hm.
  assert (Hu0 : unique_keys (errors (state c0)) = true) by exact Hu.
  pose proof (commitErrors_rest (Fulfilled merged) c0) as Hrest.
  pose proof (fun p m => commitErrors_stored merged c0 p m Hm0 Hu0) as Hstored.
  rewrite commitErrors_value.
  set (cc := fst (commitErrors (Fulfilled merged) c0)) in *.
  cbv zeta in Hrest. fold cc in Hrest.
  destruct Hrest as (_ & _ & _ & _ & Hcount & Hmount & _ & Hsub & Hres).
  rewrite Hm0 in Hmount.
  unfold continue, clearValidating. rewrite Hkeys, Hmount. simpl.
  rewrite Hmount. simpl.
  repeat split; try assumption.
  rewrite Hres. reflexivity.
Qed.

Lemma submitForm_with_errors_witness :
  (reachable mounted
   /\ is_Some (runs (run (submitForm mounted) [SetStatus (VStr "busy")])
                 !! fresh mounted)
   /\ (fresh mounted
         ∉ hasCanceled (run (submitForm mounted) [SetStatus (VStr "busy")]))
   /\ didMount (run (submitForm mounted) [SetStatus (VStr "busy")]) = true
   /\ unique_keys
        (errors (state (run (submitForm mounted) [SetStatus (VStr "busy")])))
      = true
   /\ object_keys_length email_required = Some 1
   /\ getIn email_required "email" = VStr "Required")
  /\ (let c1 := run (submitForm mounted) [SetStatus (VStr "busy")] in
      let c2 := step c1 (SettleValidation (fresh mounted)
                           (Fulfilled email_required)) in
      validator (submitForm mounted) = Some (fresh mounted)
      /\ submitCount (state (submitForm mounted))
         = submitCount (state mounted) + 1
      /\ submitted (submitForm mounted) = submitted mounted
      /\ getIn (errors (state c2)) "email" = VStr "Required"
      /\ submitted c2 = submitted c1
      /\ isSubmitting (state c2) = false
      /\ isValidating (state c2) = false
      /\ submitCount (state c2) = submitCount (state c1)
      /\ resolved c2
         = (resolved c1 ++ [(fresh mounted, Fulfilled VUndef)])%list).
Proof.
  assert (H1 : reachable mounted) by (eexists _, _; reflexivity).
  assert (H2 : is_Some (runs (run (submitForm mounted) [SetStatus (VStr "busy")])
                          !! fresh mounted))
    by (eexists; vm_compute; reflexivity).
  assert (H3 : fresh mounted
                 ∉ hasCanceled (run (submitForm mounted) [SetStatus (VStr "busy")]))
    by (vm_compute; set_solver).
  assert (H4 : didMount (run (submitForm mounted) [SetStatus (VStr "busy")]) = true)
    by reflexivity.
  assert (H5 : unique_keys
                 (errors (state (run (submitForm mounted)
                                   [SetStatus (VStr "busy")]))) = true)
    by reflexivity.
  assert (H6 : object_keys_length email_required = Some 1) by reflexivity.
  assert (H7 : getIn email_required "email" = VStr "Required") by reflexivity.
  split; [repeat split; assumption |].
  destruct (submitForm_with_errors mounted [SetStatus (VStr "busy")]
              email_required 0 H1 H2 H3 H4 H5 H6)
    as (G1 & G2 & G3 & G4 & G5 & G6 & G7 & G8 & G9).
  exact (conj G1 (conj G2 (conj G3 (conj (G4 "email" "Required" H7)
           (conj G5 (conj G6 (conj G7 (conj G8 G9)))))))).
Defined.

(** The claim C3 as stated, for every call of [submitForm()], fails where
    the instance is not mounted when the validation completes: the guards
    on [this.didMount] leave [errors] and [isSubmitting] as they are. *)
Lemma submitForm_with_errors_unmounted :
  object_keys_length email_required = Some 1
  /\ getIn email_required "email" = VStr "Required"
  /\ (let c := step unmounted_during_submit
                 (SettleValidation 0 (Fulfilled email_required)) in
      getIn (errors (state c)) "email" <> VStr "Required"
      /\ isSubmitting (state c) <> false
      /\ resolved c = [])
  /\ (let c := step submitted_before_mount
                 (SettleValidation 0 (Fulfilled email_required)) in
      getIn (errors (state c)) "email" <> VStr "Required"
      /\ isSubmitting (state c) <> false
      /\ resolved c = [(0, Fulfilled VUndef)]).
Proof. vm_compute. repeat split; discriminate. Qed.

(** C4 (as amended). [submitForm()] sets [isSubmitting]. When the result of
    its validation run is delivered (the run is still pending and has not
    been canceled by a newer run or by teardown) and the merged tree has no
    top-level key: the submit handler is invoked exactly once, with the
    values then in [state], the promise of [submitForm()] settles as the
    handler's result does, [isSubmitting] is left as it is, and
    [isValidating] is false if the instance is mounted at that time. *)
Theorem submitForm_without_errors c es merged :
  reachable c ->
  is_Some (runs (run (submitForm c) es) !! fresh c) ->
  fresh c ∉ hasCanceled (run (submitForm c) es) ->
  object_keys_length merged = Some 0 ->
  let c1 := run (submitForm c) es in
  let c2 := step c1 (SettleValidation (fresh c) (Fulfilled merged)) in
  validator (submitForm c) = Some (fresh c)
  /\ isSubmitting (state (submitForm c)) = true
  /\ submitted (submitForm c) = submitted c
  /\ submitted c2 = (submitted c1 ++ [values (state c1)])%list
  /\ resolved c2
     = (resolved c1
        ++ [(fresh c,
             promise_of_call (Props.onSubmit (props c1) (values (state c1))))])%list
  /\ isSubmitting (state c2) = isSubmitting (state c1)
  /\ (didMount c1 = true -> isValidating (state c2) = false).
Proof.
  intros Hreach Hpending Hnc Hkeys c1 c2.
  pose proof (submitForm_run_pending c es Hreach Hpending) as Hrun.
  fold c1 in Hrun, Hnc.
  split; [exact (proj2 (runValidations_started ThenSubmitForm _ (setState _ c))) |].
  split; [unfold submitForm, runValidations; simpl;
          destruct (validator c); reflexivity |].
  split; [unfold submitForm, runValidations; simpl;
          destruct (validator c); reflexivity |].
  subst c2. unfold step. rewrite (settle_delivered _ _ _ _ Hrun Hnc).
  cbv zeta. simpl run_then.
  set (c0 := set_runs (delete (fresh c) (runs c1)) c1).
  pose proof (commitErrors_rest (Fulfilled merged) c0) as Hrest.
  rewrite commitErrors_value.
  cbv zeta in Hrest.
  set (cc := fst (commitErrors (Fulfilled merged) c0)) in *.
  destruct Hrest as (Hvals & _ & Hsubm & _ & _ & Hmount & Hprops & Hsub & Hres).
  change (values (state c0)) with (values (state c1)) in Hvals.
  change (isSubmitting (state c0)) with (isSubmitting (state c1)) in Hsubm.
  change (didMount c0) with (didMount c1) in Hmount.
  change (props c0) with (props c1) in Hprops.
  change (submitted c0) with (submitted c1) in Hsub.
  change (resolved c0) with (resolved c1) in Hres.
  unfold continue, clearValidating, executeSubmit, resolve. rewrite Hkeys.
  destruct (didMount cc) eqn:Hmcc; simpl;
    rewrite ?Hvals, ?Hsubm, ?Hprops, ?Hsub, ?Hres;
    repeat split; try reflexivity; intros Hm1; congruence.
Qed.

Lemma submitForm_without_errors_witness :
  (reachable mounted
   /\ is_Some (runs (run (submitForm mounted) [SetStatus (VStr "busy")])
                 !! fresh mounted)
   /\ (fresh mounted
         ∉ hasCanceled (run (submitForm mounted) [SetStatus (VStr "busy")]))
   /\ object_keys_length (VObj []) = Some 0
   /\ didMount (run (submitForm mounted) [SetStatus (VStr "busy")]) = true)
  /\ (let c1 := run (submitForm mounted) [SetStatus (VStr "busy")] in
      let c2 := step c1 (SettleValidation (fresh mounted) (Fulfilled (VObj []))) in
      validator (submitForm mounted) = Some (fresh mounted)
      /\ isSubmitting (state (submitForm mounted)) = true
      /\ submitted (submitForm mounted) = submitted mounted
      /\ submitted c2 = (submitted c1 ++ [values (state c1)])%list
      /\ resolved c2
         = (resolved c1
            ++ [(fresh mounted,
                 promise_of_call
                   (Props.onSubmit (props c1) (values (state c1))))])%list
      /\ isSubmitting (state c2) = isSubmitting (state c1)
      /\ isValidating (state c2) = false).
Proof.
  assert (H1 : reachable mounted) by (eexists _, _; reflexivity).
  assert (H2 : is_Some (runs (run (submitForm mounted) [SetStatus (VStr "busy")])
                          !! fresh mounted))
    by (eexists; vm_compute; reflexivity).
  assert (H3 : fresh mounted
                 ∉ hasCanceled (run (submitForm mounted) [SetStatus (VStr "busy")]))
    by (vm_compute; set_solver).
  assert (H4 : object_keys_length (VObj []) = Some 0) by reflexivity.
  assert (H5 : didMount (run (submitForm mounted) [SetStatus (VStr "busy")]) = true)
    by reflexivity.
  split; [repeat split; assumption |].
  destruct (submitForm_without_errors mounted [SetStatus (VStr "busy")]
              (VObj []) H1 H2 H3 H4)
    as (G1 & G2 & G3 & G4 & G5 & G6 & G7).
  exact (conj G1 (conj G2 (conj G3 (conj G4 (conj G5 (conj G6 (G7 H5))))))).
Defined.

Example submitForm_valid_on_mounted :
  let c := step (submitForm mounted) (SettleValidation 0 (Fulfilled (VObj []))) in
  submitted c = [VObj [("email", VStr "")]]
  /\ resolved c = [(0, Fulfilled (VStr "sent"))]
  /\ isSubmitting (state c) = true
  /\ isValidating (state c) = false.
Proof. vm_compute. repeat split. Qed.

(** The claim C4 as stated, for every call of [submitForm()], fails where
    the instance is not mounted when the validation completes: the handler
    is invoked but [isValidating] stays set, and a run canceled by teardown
    does not reach the handler at all. *)
Lemma submitForm_without_errors_unmounted :
  object_keys_length (VObj []) = Some 0
  /\ (let c := step submitted_before_mount
                 (SettleValidation 0 (Fulfilled (VObj []))) in
      submitted c = [VObj [("email", VStr "")]]
      /\ isValidating (state c) <> false)
  /\ (let c := step unmounted_during_submit
                 (SettleValidation 0 (Fulfilled (VObj []))) in
      submitted c = []
      /\ isValidating (state c) <> false).
Proof. vm_compute. repeat split; discriminate. Qed.

(** ** The cache of change handlers *)















Example handleChange_two_paths :
  let '(c1, h1) := handleChange "email" mounted in
  let '(c2, h2) := handleChange "name" c1 in
  let '(c3, h3) := handleChange "email" c2 in
  (h1, h2, h3) = (0, 1, 0).
Proof. vm_compute. reflexivity. Qed.

(** ** Teardown *)








(** ** The field-level source *)

Lemma runSingleFieldLevelValidation_reported fields field v :
  runSingleFieldLevelValidation fields field v
  = Fulfilled (reported fields field v).
Proof.
  unfold runSingleFieldLevelValidation, reported.
  destruct (fields_find field fields) as [comp|]; [| reflexivity].
  destruct (field_validate comp) as [validate|]; [| reflexivity].
  destruct (validate v) as [x | [x | e] | e]; reflexivity.
Qed.

Lemma promise_all_fulfilled {A : Type} (g : A -> value) (l : list A) :
  promise_all (map (fun x => Fulfilled (g x)) l) = inr (map g l).
Proof.
  induction l as [|x r IH]; simpl; [reflexivity |]. rewrite IH. reflexivity.
Qed.

Lemma reduce_collect (g : string -> value) : forall suf pre acc,
  reduce_indexed (collect_field_error (pre ++ suf)) (map g suf) (length pre) acc
  = fold_left
      (fun tree f =>
         if is_sentinel (g f) then tree
         else if truthy (g f) then setIn tree f (g f) else tree)
      suf acc.
Proof.
  induction suf as [|f suf IH]; intros pre acc; [reflexivity |].
  simpl. unfold collect_field_error at 2.
  rewrite nth_middle.
  replace (pre ++ f :: suf)%list with ((pre ++ [f]) ++ suf)%list
    by (rewrite <- app_assoc; reflexivity).
  replace (S (length pre)) with (length (pre ++ [f])%list)
    by (rewrite length_app; simpl; lia).
  apply IH.
Qed.

Lemma fold_filtered (g : string -> value) : forall l acc,
  fold_left
    (fun tree f =>
       if is_sentinel (g f) then tree
       else if truthy (g f) then setIn tree f (g f) else tree)
    l acc
  = fold_left
      (fun tree kv => setIn tree (fst kv) (snd kv))
      (List.filter (fun kv => truthy (snd kv) && negb (is_sentinel (snd kv)))
         (map (fun f => (f, g f)) l))
      acc.
Proof.
  induction l as [|f l IH]; intros acc; [reflexivity |].
  simpl. destruct (is_sentinel (g f)), (truthy (g f)); simpl; apply IH.
Qed.

Lemma runFieldLevelValidations_spec fields values :
  runFieldLevelValidations fields values
  = Fulfilled (spec_fieldErrors fields values).
Proof.
  unfold runFieldLevelValidations, fieldValidations, spec_fieldErrors.
  destruct (fieldKeysWithValidation fields) as [|k keys] eqn:E; [reflexivity |].
  change (0 <? length (k :: keys)) with true. cbv iota.
  rewrite (map_ext _ (fun f => Fulfilled (reported fields f (getIn values f))))
    by (intros f; apply runSingleFieldLevelValidation_reported).
  rewrite (promise_all_fulfilled (fun f => reported fields f (getIn values f))).
  f_equal.
  rewrite <- (fold_filtered (fun f => reported fields f (getIn values f))).
  exact (reduce_collect (fun f => reported fields f (getIn values f))
           (k :: keys) [] (VObj [])).
Qed.

(** A field validator cannot make the merged promise reject: when the
    schema and handler sources fulfil, so does the whole. *)
Lemma mergedSources_fulfilled deepmerge_all schema handler fields values s h :
  match schema with
  | Some sc => runValidationSchema sc values
  | None => Fulfilled (VObj [])
  end = Fulfilled s ->
  match handler with
  | Some f => runValidateHandler f values
  | None => Fulfilled (VObj [])
  end = Fulfilled h ->
  mergedSources deepmerge_all schema handler fields values
  = Fulfilled (deepmerge_all [spec_fieldErrors fields values; s; h]).
Proof.
  intros Hs Hh. unfold mergedSources, validationSources.
  rewrite runFieldLevelValidations_spec, Hs, Hh. reflexivity.
Qed.



Example runFieldLevelValidations_sample :
  runFieldLevelValidations sample_fields (VObj [])
  = Fulfilled (VObj [("email", VStr "Invalid email")]).
Proof. reflexivity. Qed.

(** ** The handler-level source *)

(** C2 (as amended). A synchronous return of [undefined] is no error; any
    other synchronous return is used as it is as the error tree of the
    handler-level source. When the validator returns a promise, its
    fulfilment is no error and its rejection value is used as the tree. *)
Theorem runValidateHandler_outcomes validate values :
  (forall v, validate values = Returns v ->
     runValidateHandler validate values
     = Fulfilled (if is_undefined v then VObj [] else v))
  /\ (forall v, validate values = ReturnsPromise (Fulfilled v) ->
        runValidateHandler validate values = Fulfilled (VObj []))
  /\ (forall errs, validate values = ReturnsPromise (Rejected errs) ->
        runValidateHandler validate values = Fulfilled errs).
Proof.
  unfold runValidateHandler.
  repeat split; intros x ->; try reflexivity.
  destruct (is_undefined x); reflexivity.
Qed.

Lemma runValidateHandler_outcomes_witness :
  ((fun _ : value => Returns email_required) (VObj []) = Returns email_required
   /\ (fun _ : value => ReturnsPromise (Fulfilled (VStr "ok"))) (VObj [])
      = ReturnsPromise (Fulfilled (VStr "ok"))
   /\ (fun _ : value => ReturnsPromise (Rejected email_required)) (VObj [])
      = ReturnsPromise (Rejected email_required))
  /\ runValidateHandler (fun _ => Returns email_required) (VObj [])
     = Fulfilled (if is_undefined email_required then VObj [] else email_required)
  /\ runValidateHandler (fun _ => ReturnsPromise (Fulfilled (VStr "ok"))) (VObj [])
     = Fulfilled (VObj [])
  /\ runValidateHandler (fun _ => ReturnsPromise (Rejected email_required))
       (VObj [])
     = Fulfilled email_required.
Proof.
  split; [repeat split |].
  split.
  { exact (proj1 (runValidateHandler_outcomes (fun _ => Returns email_required)
                    (VObj [])) email_required eq_refl). }
  split.
  { exact (proj1 (proj2 (runValidateHandler_outcomes
                           (fun _ => ReturnsPromise (Fulfilled (VStr "ok")))
                           (VObj []))) (VStr "ok") eq_refl). }
  exact (proj2 (proj2 (runValidateHandler_outcomes
                         (fun _ => ReturnsPromise (Rejected email_required))
                         (VObj []))) email_required eq_refl).
Defined.

(** The claim C2 as stated fails: the tree returned synchronously by the
    validator is the tree of the source, not the empty tree. *)
Lemma runValidateHandler_keeps_synchronous_errors :
  runValidateHandler (fun _ => Returns email_required) (VObj [("email", VStr "")])
  = Fulfilled email_required
  /\ Fulfilled email_required <> Fulfilled (VObj []).
Proof. split; [reflexivity | discriminate]. Qed.

(** ** The schema-level source *)

Lemma obj_set_new k v kvs :
  ~ In k (map fst kvs) -> obj_set k v kvs = (kvs ++ [(k, v)])%list.
Proof.
  induction kvs as [|[k' v'] rest IH]; simpl; intros Hnew; [reflexivity |].
  destruct (String.eqb k k') eqn:E.
  - apply String.eqb_eq in E. subst k'. exfalso. apply Hnew. left; reflexivity.
  - rewrite IH; [reflexivity |]. intros Hin. apply Hnew. right; exact Hin.
Qed.

Lemma fill_validateData (g : value -> value) : forall kvs data,
  List.NoDup (map fst data ++ map fst kvs) ->
  fold_left (fun data kv => obj_set (fst kv) (g (snd kv)) data) kvs data
  = (data ++ map (fun kv => (fst kv, g (snd kv))) kvs)%list.
Proof.
  induction kvs as [|[k v] rest IH]; intros data Hnd; simpl.
  - rewrite app_nil_r. reflexivity.
  - rewrite obj_set_new.
    + rewrite IH.
      * rewrite <- app_assoc. reflexivity.
      * rewrite map_app, <- app_assoc. exact Hnd.
    + simpl in Hnd. apply List.NoDup_remove_2 in Hnd.
      intros Hin. apply Hnd. apply in_or_app. left; exact Hin.
Qed.

(** C5 (as amended). The schema validator receives a new object with the
    keys of the values, in which a top-level property equal to the empty
    string is [undefined] and every other property, a nested tree
    included, is the one of the values. The values are an argument of
    the function and are not written. *)
Theorem validateYupSchema_blanks_top_level kvs schema :
  List.NoDup (map fst kvs) ->
  validateYupSchema (VObj kvs) schema
  = schema
      (VObj (map (fun kv =>
                    (fst kv, if is_empty_string (snd kv) then VUndef else snd kv))
               kvs)).
Proof.
  intros Hnd. unfold validateYupSchema, validateData. simpl. f_equal. f_equal.
  rewrite (fill_validateData
             (fun v => if negb (is_empty_string v) then v else VUndef))
    by exact Hnd.
  simpl. apply map_ext. intros [k v]. simpl.
  destruct (is_empty_string v); reflexivity.
Qed.

Lemma validateYupSchema_blanks_top_level_witness :
  List.NoDup (map fst [("email", VStr ""); ("age", VNum 3)])
  /\ validateYupSchema (VObj [("email", VStr ""); ("age", VNum 3)]) YupValid
     = YupValid
         (VObj (map (fun kv =>
                       (fst kv,
                        if is_empty_string (snd kv) then VUndef else snd kv))
                  [("email", VStr ""); ("age", VNum 3)])).
Proof.
  assert (H : List.NoDup (map fst [("email", VStr ""); ("age", VNum 3)])).
  { apply nodup_keys_NoDup. reflexivity. }
  split; [exact H |].
  exact (validateYupSchema_blanks_top_level _ YupValid H).
Defined.

(** The claim C5 as stated, at any nesting depth, fails: an empty string
    below the top level reaches the schema validator as it is. *)
Lemma validateYupSchema_keeps_nested_blank :
  validateYupSchema
    (VObj [("name", VObj [("first", VStr "")]); ("email", VStr "")]) YupValid
  = YupValid (VObj [("name", VObj [("first", VStr "")]); ("email", VUndef)])
  /\ getIn (validateData
              (VObj [("name", VObj [("first", VStr "")]); ("email", VStr "")]))
       "name.first" = VStr ""
  /\ VStr "" <> VUndef.
Proof. repeat split; discriminate. Qed.

Lemma obj_find_set k k' v kvs :
  obj_find k (obj_set k' v kvs)
  = if String.eqb k k' then Some v else obj_find k kvs.
Proof.
  induction kvs as [|[k0 v0] rest IH]; simpl.
  - destruct (String.eqb k k'); reflexivity.
  - destruct (String.eqb k' k0) eqn:E0; simpl.
    + apply String.eqb_eq in E0. subst k0.
      destruct (String.eqb k k'); reflexivity.
    + destruct (String.eqb k k0) eqn:E1.
      * apply String.eqb_eq in E1. subst k0.
        rewrite String.eqb_sym, E0. reflexivity.
      * exact IH.
Qed.

(** The loop of [yupToFormErrors] over entries whose paths are single
    top-level keys and whose messages are truthy. *)
Lemma yupToFormErrors_loop_top_level k : forall inner acc,
  Forall (fun err => toPath (inner_path err) = [inner_path err]
                     /\ truthy (inner_message err) = true) inner ->
  Forall (fun kv => truthy (snd kv) = true) acc ->
  exists acc',
    fold_left
      (fun errors err =>
         if negb (truthy (get_prop errors (inner_path err)))
         then setIn errors (inner_path err) (inner_message err)
         else errors)
      inner (VObj acc) = VObj acc'
    /\ obj_find k acc'
       = match obj_find k acc with
         | Some v => Some v
         | None =>
             option_map inner_message
               (find (fun err => String.eqb k (inner_path err)) inner)
         end.
Proof.
  induction inner as [|err inner IH]; intros acc Hinner Hacc; simpl.
  - exists acc. split; [reflexivity |]. destruct (obj_find k acc); reflexivity.
  - apply Forall_cons in Hinner as [[Hflat Hmsg] Hinner].
    destruct (obj_find (inner_path err) acc) as [w|] eqn:Ew; simpl.
    + assert (Hw : truthy w = true).
      { rewrite List.Forall_forall in Hacc.
        exact (Hacc _ (obj_find_In _ _ _ Ew)). }
      rewrite Hw. simpl.
      destruct (IH acc Hinner Hacc) as (acc' & Hfold & Hfind).
      exists acc'. split; [exact Hfold |]. rewrite Hfind.
      destruct (obj_find k acc) eqn:Ek; [reflexivity |].
      destruct (String.eqb k (inner_path err)) eqn:E; [| reflexivity].
      apply String.eqb_eq in E. congruence.
    + unfold setIn. rewrite Hflat. simpl.
      assert (Hacc' : Forall (fun kv => truthy (snd kv) = true)
                        (obj_set (inner_path err) (inner_message err) acc)).
      { clear -Hacc Hmsg. induction acc as [|[k0 v0] rest IHacc]; simpl.
        - constructor; [exact Hmsg | constructor].
        - apply Forall_cons in Hacc as [H0 Hrest].
          destruct (String.eqb (inner_path err) k0).
          + constructor; [exact Hmsg | exact Hrest].
          + constructor; [exact H0 | exact (IHacc Hrest)]. }
      destruct (IH _ Hinner Hacc') as (acc' & Hfold & Hfind).
      exists acc'. split; [exact Hfold |]. rewrite Hfind, obj_find_set.
      destruct (String.eqb k (inner_path err)) eqn:E; [| reflexivity].
      apply String.eqb_eq in E. subst k. rewrite Ew. reflexivity.
Qed.

(** Where the guard of the loop does its work: among entries that all
    address top-level keys with truthy messages, the first message of a
    key is the one kept. *)
Lemma yupToFormErrors_top_level_first_wins inner path message k :
  inner <> [] ->
  Forall (fun err => toPath (inner_path err) = [inner_path err]
                     /\ truthy (inner_message err) = true) inner ->
  get_prop (yupToFormErrors (mkYupError inner path message)) k
  = match find (fun err => String.eqb k (inner_path err)) inner with
    | Some err => inner_message err
    | None => VUndef
    end.
Proof.
  intros Hne Hinner. unfold yupToFormErrors. simpl.
  destruct inner as [|e0 rest]; [congruence |].
  change (length (e0 :: rest) =? 0) with false. cbv iota.
  destruct (yupToFormErrors_loop_top_level k (e0 :: rest) [] Hinner)
    as (acc' & Hfold & Hfind); [constructor |].
  rewrite Hfold. simpl get_prop. rewrite Hfind. simpl obj_find.
  destruct (find _ (e0 :: rest)); reflexivity.
Qed.

(** C6 (the code at the failing input). Two entries of a rejection share
    the nested path a.b: [errors[err.path]] looks for a property named a.b,
    which [setIn] never creates, so the second entry is applied as well and
    its message replaces the first. With a top-level path the first message
    stays; with no entry the rejection's own path and message are written. *)
Theorem yupToFormErrors_nested_path_last_wins :
  yupToFormErrors
    (mkYupError [mkInner "a.b" (VStr "first"); mkInner "a.b" (VStr "second")]
       "" VUndef)
  = VObj [("a", VObj [("b", VStr "second")])]
  /\ yupToFormErrors
       (mkYupError [mkInner "a" (VStr "first"); mkInner "a" (VStr "second")]
          "" VUndef)
     = VObj [("a", VStr "first")]
  /\ forall path message,
       yupToFormErrors (mkYupError [] path message)
       = setIn (VObj []) path message.
Proof. repeat split. Qed.

(** ** Reset *)



(** * Further properties of the component *)

(** ** One live run *)

(** X1. On every instance the operations can produce, a pending whole-form
    run whose cancel flag is not set is the run [this.validator] refers to:
    there is at most one such run. *)
Theorem one_live_run c a b :
  reachable c ->
  is_Some (runs c !! a) -> a ∉ hasCanceled c ->
  is_Some (runs c !! b) -> b ∉ hasCanceled c ->
  validator c = Some a /\ a = b.
Proof.
  intros Hreach [ra Ha] Hna [rb Hb] Hnb.
  pose proof (wf_reachable c Hreach) as Hwf.
  destruct (wf_superseded c Hwf _ _ Ha) as [Hva | Hca]; [| contradiction].
  destruct (wf_superseded c Hwf _ _ Hb) as [Hvb | Hcb]; [| contradiction].
  split; [exact Hva | congruence].
Qed.

Lemma one_live_run_witness :
  (reachable two_runs_started
   /\ is_Some (runs two_runs_started !! 1)
   /\ (1 ∉ hasCanceled two_runs_started))
  /\ validator two_runs_started = Some 1 /\ 1 = 1.
Proof.
  assert (H1 : reachable two_runs_started) by (eexists _, _; reflexivity).
  assert (H2 : is_Some (runs two_runs_started !! 1))
    by (eexists; vm_compute; reflexivity).
  assert (H3 : 1 ∉ hasCanceled two_runs_started) by (vm_compute; set_solver).
  split; [repeat split; assumption |].
  exact (one_live_run two_runs_started 1 1 H1 H2 H3 H2 H3).
Defined.

(** ** Deep equality *)

Lemma obj_find_unique k v kvs :
  List.NoDup (map fst kvs) -> In (k, v) kvs -> obj_find k kvs = Some v.
Proof.
  induction kvs as [|[k0 v0] rest IH]; simpl; intros Hnd Hin; [contradiction |].
  apply List.NoDup_cons_iff in Hnd as [Hnot Hnd].
  destruct Hin as [[= -> ->] | Hin].
  - rewrite String.eqb_refl. reflexivity.
  - destruct (String.eqb k k0) eqn:E; [| exact (IH Hnd Hin)].
    apply String.eqb_eq in E. subst k0. exfalso. apply Hnot.
    apply in_map_iff. exists (k, v). split; [reflexivity | exact Hin].
Qed.

(** A value without duplicate keys is equal to itself. *)
Lemma isEqual_refl v : unique_keys v = true -> isEqual v v = true.
Proof.
  induction v as [| | b | z | s | kvs IHkvs | items IHitems]
    using value_ind_deep; simpl; intros Hu; try reflexivity.
  - destruct b; reflexivity.
  - apply Z.eqb_refl.
  - apply String.eqb_refl.
  - apply andb_prop in Hu as [Hnd Hall].
    rewrite Nat.eqb_refl. simpl.
    apply forallb_forall. intros [k v] Hin. simpl.
    rewrite (obj_find_unique k v kvs (nodup_keys_NoDup _ Hnd) Hin).
    rewrite List.Forall_forall in IHkvs. rewrite forallb_forall in Hall.
    exact (IHkvs _ Hin (Hall _ Hin)).
  - induction items as [|x r IHr]; [reflexivity |].
    simpl in Hu. apply andb_prop in Hu as [Hx Hr].
    apply List.Forall_cons_iff in IHitems as [Px Pr].
    rewrite (Px Hx). simpl. exact (IHr Pr Hr).
Qed.

Lemma isEqual_keys a b :
  isEqual a b = true -> object_keys_length a = object_keys_length b.
Proof.
  destruct a as [| | | | |pa|la], b as [| | | | |pb|lb];
    simpl; try discriminate; try reflexivity.
  - intros E. apply String.eqb_eq in E. subst. reflexivity.
  - intros E. apply andb_prop in E as [E _]. apply Nat.eqb_eq in E.
    rewrite E. reflexivity.
  - revert lb. induction la as [|x ra IH]; intros [|y rb] E;
      try discriminate; [reflexivity |].
    apply andb_prop in E as [_ E]. specialize (IH rb E).
    simpl. injection IH as ->. reflexivity.
Qed.

Lemma isEqual_truthy a b : isEqual a b = true -> truthy a = truthy b.
Proof.
  destruct a, b; simpl; try discriminate; try reflexivity.
  - intros E. apply Bool.eqb_prop in E. subst. reflexivity.
  - intros E. apply Z.eqb_eq in E. subst. reflexivity.
  - intros E. apply String.eqb_eq in E. subst. reflexivity.
Qed.

(** ** Pristine forms *)

Lemma same_values_not_dirty c :
  initialValues c = values (state c) ->
  unique_keys (values (state c)) = true ->
  dirty c = false.
Proof.
  intros Hsame Hu. unfold dirty. rewrite Hsame, (isEqual_refl _ Hu). reflexivity.
Qed.



(** X3. [resetForm] does not cancel the validation in flight: a run that
    was pending and not canceled before the reset is still delivered
    afterwards, and on a mounted instance its error tree (when it is not
    the empty object) is written into the [errors] that the reset has just
    emptied. *)
Theorem resetForm_keeps_validation_in_flight c nextValues id r errs :
  runs c !! id = Some r ->
  id ∉ hasCanceled c ->
  didMount c = true ->
  isEqual (VObj []) errs = false ->
  errors (state (resetForm nextValues c)) = VObj []
  /\ errors (state (step (resetForm nextValues c)
                      (SettleValidation id (Fulfilled errs)))) = errs.
Proof.
  intros Hr Hnc Hm Hne. split; [reflexivity |].
  unfold step.
  rewrite (settle_delivered id (Fulfilled errs) (resetForm nextValues c) r Hr Hnc).
  cbv zeta. rewrite commitErrors_value.
  set (c0 := set_runs _ (resetForm nextValues c)).
  assert (Hcommit : errors (state (fst (commitErrors (Fulfilled errs) c0))) = errs).
  { unfold commitErrors. cbn [fst].
    change (didMount c0) with (didMount c). rewrite Hm.
    unfold setState, set_state. cbn [state].
    change (errors (state c0)) with (VObj []). rewrite Hne. reflexivity. }
  assert (Hm' : didMount (fst (commitErrors (Fulfilled errs) c0)) = true).
  { unfold commitErrors. cbn [fst].
    change (didMount c0) with (didMount c). rewrite Hm. exact Hm. }
  set (cc := fst (commitErrors (Fulfilled errs) c0)) in *.
  unfold continue, clearValidating, executeSubmit, resolve. rewrite Hm'.
  destruct (run_then r); simpl; try exact Hcommit.
  destruct (object_keys_length errs) as [[|n]|]; simpl; rewrite ?Hm'; simpl;
    exact Hcommit.
Qed.

Lemma resetForm_keeps_validation_in_flight_witness :
  (runs two_runs_started !! 1
   = Some (mkRun (VObj [("email", VStr "")]) ThenSubmitForm)
   /\ (1 ∉ hasCanceled two_runs_started)
   /\ didMount two_runs_started = true
   /\ isEqual (VObj []) email_required = false)
  /\ errors (state (resetForm VUndef two_runs_started)) = VObj []
  /\ errors (state (step (resetForm VUndef two_runs_started)
                      (SettleValidation 1 (Fulfilled email_required))))
     = email_required.
Proof.
  assert (H1 : runs two_runs_started !! 1
               = Some (mkRun (VObj [("email", VStr "")]) ThenSubmitForm))
    by (vm_compute; reflexivity).
  assert (H2 : 1 ∉ hasCanceled two_runs_started) by (vm_compute; set_solver).
  assert (H3 : didMount two_runs_started = true) by reflexivity.
  assert (H4 : isEqual (VObj []) email_required = false) by reflexivity.
  split; [repeat split; assumption |].
  exact (resetForm_keeps_validation_in_flight two_runs_started VUndef 1 _
           email_required H1 H2 H3 H4).
Defined.

(** ** New props *)

(** X4. When new props arrive, the form is reinitialized exactly when
    [enableReinitialize] is set and the new [initialValues] are not deep
    equal to those of the previous props; otherwise [state] and the
    remembered initial values stay. A reinitialized form has the new
    initial values as its values and as its remembered initial values (a
    falsy one included), empty [errors] and [touched], [submitCount] 0 and
    the new [initialStatus], and it is not dirty. *)
Theorem componentDidUpdate_reinitializes c nextProps :
  props (componentDidUpdate nextProps c) = nextProps
  /\ (Props.enableReinitialize nextProps = false
      \/ isEqual (Props.initialValues (props c))
           (Props.initialValues nextProps) = true ->
      state (componentDidUpdate nextProps c) = state c
      /\ initialValues (componentDidUpdate nextProps c) = initialValues c)
  /\ (Props.enableReinitialize nextProps = true ->
      isEqual (Props.initialValues (props c))
        (Props.initialValues nextProps) = false ->
      values (state (componentDidUpdate nextProps c))
      = Props.initialValues nextProps
      /\ initialValues (componentDidUpdate nextProps c)
         = Props.initialValues nextProps
      /\ errors (state (componentDidUpdate nextProps c)) = VObj []
      /\ touched (state (componentDidUpdate nextProps c)) = VObj []
      /\ submitCount (state (componentDidUpdate nextProps c)) = 0
      /\ status (state (componentDidUpdate nextProps c))
         = Props.initialStatus nextProps
      /\ (unique_keys (Props.initialValues nextProps) = true ->
          dirty (componentDidUpdate nextProps c) = false)).
Proof.
  unfold componentDidUpdate. cbn [props set_props].
  split; [destruct (_ && _); reflexivity |].
  split.
  - intros [Hoff | Hsame].
    + rewrite Hoff. split; reflexivity.
    + rewrite Hsame, andb_false_r. split; reflexivity.
  - intros Hon Hdiff. rewrite Hon, Hdiff. cbn [andb negb].
    match goal with |- context [resetForm ?v ?c0] => set (c' := resetForm v c0) end.
    assert (Hvals : values (state c') = Props.initialValues nextProps).
    { subst c'. unfold resetForm. cbn. destruct (truthy _); reflexivity. }
    assert (Hinit : initialValues c' = Props.initialValues nextProps).
    { subst c'. unfold resetForm. cbn. destruct (truthy _); reflexivity. }
    split; [exact Hvals |]. split; [exact Hinit |].
    repeat split.
    intros Hu. apply same_values_not_dirty.
    + rewrite Hvals, Hinit. reflexivity.
    + rewrite Hvals. exact Hu.
Qed.

Lemma componentDidUpdate_reinitializes_witness :
  (Props.enableReinitialize reinitialize_props = true
   /\ isEqual (Props.initialValues (props mounted))
        (Props.initialValues reinitialize_props) = false
   /\ unique_keys (Props.initialValues reinitialize_props) = true
   /\ isEqual (Props.initialValues (props mounted))
        (Props.initialValues sample_props) = true)
  /\ values (state (componentDidUpdate reinitialize_props mounted))
     = Props.initialValues reinitialize_props
  /\ dirty (componentDidUpdate reinitialize_props mounted) = false
  /\ state (componentDidUpdate sample_props mounted) = state mounted.
Proof.
  assert (H1 : Props.enableReinitialize reinitialize_props = true) by reflexivity.
  assert (H2 : isEqual (Props.initialValues (props mounted))
                 (Props.initialValues reinitialize_props) = false) by reflexivity.
  assert (H3 : unique_keys (Props.initialValues reinitialize_props) = true)
    by reflexivity.
  assert (H4 : isEqual (Props.initialValues (props mounted))
                 (Props.initialValues sample_props) = true) by reflexivity.
  split; [repeat split; assumption |].
  destruct (componentDidUpdate_reinitializes mounted reinitialize_props)
    as (_ & _ & Hre).
  destruct (Hre H1 H2) as (Hv & _ & _ & _ & _ & _ & Hd).
  destruct (componentDidUpdate_reinitializes mounted sample_props)
    as (_ & Hkeep & _).
  split; [exact Hv |]. split; [exact (Hd H3) |].
  exact (proj1 (Hkeep (or_intror H4))).
Defined.

(** ** Validity after a validation *)

(** X5. When the result of a whole-form run is delivered to a mounted
    instance, [errors] has as many top-level keys as the merged tree and
    the same truth value, whether the callback has stored the tree or kept
    an equal one; the values and the remembered initial values are not
    touched. So on a dirty form [isValid] is then true exactly when the
    merged tree is an object without keys. *)
Theorem isValid_after_validation c id r merged isInitialValid :
  runs c !! id = Some r ->
  id ∉ hasCanceled c ->
  didMount c = true ->
  let c' := step c (SettleValidation id (Fulfilled merged)) in
  object_keys_length (errors (state c')) = object_keys_length merged
  /\ truthy (errors (state c')) = truthy merged
  /\ values (state c') = values (state c)
  /\ initialValues c' = initialValues c
  /\ (dirty c = true ->
      computed_isValid (getFormikComputedProps isInitialValid c')
      = truthy merged && has_no_keys merged).
Proof.
  intros Hr Hnc Hm c'.
  assert (Hcommit :
    let cc := fst (commitErrors (Fulfilled merged)
                     (set_runs (delete id (runs c)) c)) in
    isEqual (errors (state cc)) merged = true \/ errors (state cc) = merged).
  { unfold commitErrors. cbn [fst].
    change (didMount (set_runs (delete id (runs c)) c)) with (didMount c).
    rewrite Hm. unfold setState, set_state. cbn [state].
    change (errors (state (set_runs (delete id (runs c)) c)))
      with (errors (state c)).
    destruct (isEqual (errors (state c)) merged) eqn:E; cbn [negb].
    - left. exact E.
    - right. reflexivity. }
  pose proof (commitErrors_rest (Fulfilled merged)
                (set_runs (delete id (runs c)) c)) as Hrest.
  cbv zeta in Hrest, Hcommit.
  assert (Hshape :
    errors (state c')
    = errors (state (fst (commitErrors (Fulfilled merged)
                            (set_runs (delete id (runs c)) c))))
    /\ values (state c') = values (state c)
    /\ initialValues c' = initialValues c).
  { subst c'. unfold step.
    rewrite (settle_delivered id (Fulfilled merged) c r Hr Hnc). cbv zeta.
    rewrite commitErrors_value.
    destruct Hrest as (Hvals & _ & _ & _ & _ & _ & _ & _ & _).
    assert (Hinit : initialValues (fst (commitErrors (Fulfilled merged)
                                          (set_runs (delete id (runs c)) c)))
                    = initialValues c).
    { unfold commitErrors. cbn [fst]. destruct (didMount _); reflexivity. }
    set (cc := fst (commitErrors (Fulfilled merged)
                      (set_runs (delete id (runs c)) c))) in *.
    unfold continue, clearValidating, executeSubmit, resolve.
    destruct (run_then r), (didMount cc) eqn:Hmcc; simpl;
      try (repeat split; assumption);
      destruct (object_keys_length merged) as [[|n]|]; simpl;
      rewrite ?Hmcc; simpl; repeat split; assumption. }
  destruct Hshape as (Herr & Hvals & Hinit).
  assert (Hkeys : object_keys_length (errors (state c'))
                  = object_keys_length merged).
  { rewrite Herr. destruct Hcommit as [E | ->];
      [exact (isEqual_keys _ _ E) | reflexivity]. }
  assert (Htruthy : truthy (errors (state c')) = truthy merged).
  { rewrite Herr. destruct Hcommit as [E | ->];
      [exact (isEqual_truthy _ _ E) | reflexivity]. }
  repeat split; try assumption.
  intros Hdirty. unfold getFormikComputedProps, computed_isValid.
  assert (Hd' : dirty c' = true)
    by (unfold dirty in *; rewrite Hvals, Hinit; exact Hdirty).
  rewrite Hd', Htruthy. unfold has_no_keys. rewrite Hkeys. reflexivity.
Qed.

Lemma isValid_after_validation_witness :
  (runs dirty_form_validating !! 0
   = Some (mkRun (VObj [("email", VStr "x")]) ThenNothing)
   /\ (0 ∉ hasCanceled dirty_form_validating)
   /\ didMount dirty_form_validating = true
   /\ dirty dirty_form_validating = true)
  /\ (let c' := step dirty_form_validating
                  (SettleValidation 0 (Fulfilled email_required)) in
      object_keys_length (errors (state c')) = object_keys_length email_required
      /\ truthy (errors (state c')) = truthy email_required
      /\ values (state c') = values (state dirty_form_validating)
      /\ initialValues c' = initialValues dirty_form_validating
      /\ computed_isValid (getFormikComputedProps (InitialValidFlag true) c')
         = truthy email_required && has_no_keys email_required).
Proof.
  assert (H1 : runs dirty_form_validating !! 0
               = Some (mkRun (VObj [("email", VStr "x")]) ThenNothing))
    by (vm_compute; reflexivity).
  assert (H2 : 0 ∉ hasCanceled dirty_form_validating) by (vm_compute; set_solver).
  assert (H3 : didMount dirty_form_validating = true) by reflexivity.
  assert (H4 : dirty dirty_form_validating = true) by reflexivity.
  split; [repeat split; assumption |].
  destruct (isValid_after_validation dirty_form_validating 0 _ email_required
              (InitialValidFlag true) H1 H2 H3)
    as (G1 & G2 & G3 & G4 & G5).
  exact (conj G1 (conj G2 (conj G3 (conj G4 (G5 H4))))).
Defined.

(** ** validateForm *)

Lemma validateForm_run_pending c vals es :
  reachable c ->
  is_Some (runs (run (validateForm vals c) es) !! fresh c) ->
  runs (run (validateForm vals c) es) !! fresh c
  = Some (mkRun vals ThenValidateForm).
Proof.
  intros Hreach [r Hr].
  assert (Hwf : wf (validateForm vals c))
    by exact (wf_reachable _ (reachable_step c (ValidateForm vals) Hreach)).
  assert (Hstart : runs (validateForm vals c) !! fresh c
                   = Some (mkRun vals ThenValidateForm))
    by exact (proj1 (runValidations_started ThenValidateForm _ (setState _ c))).
  destruct (runs_stable_run es _ _ _ Hwf Hstart) as [H | H]; [exact H |].
  congruence.
Qed.

(** The value that [.catch(x => x)] hands on. *)
Lemma commitErrors_handed_on merged c :
  snd (commitErrors merged c)
  = match merged with Fulfilled errs => errs | Rejected x => x end.
Proof. destruct merged; reflexivity. Qed.

Lemma commitErrors_rejected x c : fst (commitErrors (Rejected x) c) = c.
Proof. reflexivity. Qed.

(** X6. [validateForm(values)] sets [isValidating] and validates the values
    it is given. When its run is delivered (still pending, not canceled),
    its promise is fulfilled, never rejected: with the merged error tree,
    or, when the merged promise of the sources is rejected (a validator
    that throws), with the rejection value, in which case [errors] is not
    written. The delivery clears [isValidating] on a mounted instance and
    leaves values, [touched], [isSubmitting] and [submitCount] alone, and
    does not invoke the submit handler. *)
Theorem validateForm_never_rejects c vals es merged :
  reachable c ->
  is_Some (runs (run (validateForm vals c) es) !! fresh c) ->
  fresh c ∉ hasCanceled (run (validateForm vals c) es) ->
  let c1 := run (validateForm vals c) es in
  let c2 := step c1 (SettleValidation (fresh c) merged) in
  isValidating (state (validateForm vals c)) = true
  /\ runs (validateForm vals c) !! fresh c = Some (mkRun vals ThenValidateForm)
  /\ resolved c2
     = (resolved c1
        ++ [(fresh c,
             Fulfilled (match merged with
                        | Fulfilled errs => errs
                        | Rejected x => x
                        end))])%list
  /\ (didMount c1 = true -> isValidating (state c2) = false)
  /\ (forall x, merged = Rejected x -> errors (state c2) = errors (state c1))
  /\ values (state c2) = values (state c1)
  /\ touched (state c2) = touched (state c1)
  /\ isSubmitting (state c2) = isSubmitting (state c1)
  /\ submitCount (state c2) = submitCount (state c1)
  /\ submitted c2 = submitted c1.
Proof.
  intros Hreach Hpending Hnc c1 c2.
  pose proof (validateForm_run_pending c vals es Hreach Hpending) as Hrun.
  fold c1 in Hrun, Hnc.
  split; [unfold validateForm, runValidations; simpl;
          destruct (validator c); reflexivity |].
  split; [exact (proj1 (runValidations_started ThenValidateForm _ (setState _ c))) |].
  subst c2. unfold step. rewrite (settle_delivered _ _ _ _ Hrun Hnc).
  cbv zeta. simpl run_then.
  set (c0 := set_runs (delete (fresh c) (runs c1)) c1).
  pose proof (commitErrors_rest merged c0) as Hrest.
  rewrite commitErrors_handed_on.
  cbv zeta in Hrest.
  assert (Herr : forall x, merged = Rejected x ->
                 errors (state (fst (commitErrors merged c0))) = errors (state c1))
    by (intros x ->; reflexivity).
  set (cc := fst (commitErrors merged c0)) in *.
  destruct Hrest as (Hvals & Htouched & Hsubm & _ & Hcount & Hmount & _ & Hsub & Hres).
  change (values (state c0)) with (values (state c1)) in Hvals.
  change (touched (state c0)) with (touched (state c1)) in Htouched.
  change (isSubmitting (state c0)) with (isSubmitting (state c1)) in Hsubm.
  change (submitCount (state c0)) with (submitCount (state c1)) in Hcount.
  change (didMount c0) with (didMount c1) in Hmount.
  change (submitted c0) with (submitted c1) in Hsub.
  change (resolved c0) with (resolved c1) in Hres.
  unfold continue, clearValidating, resolve.
  destruct (didMount cc) eqn:Hmcc; simpl; rewrite ?Hres;
    repeat split; try assumption; try reflexivity;
    try (intros Hm1; congruence).
Qed.

Lemma validateForm_never_rejects_witness :
  (reachable mounted
   /\ is_Some (runs (run (validateForm (VObj []) mounted) [SetStatus (VStr "busy")])
                 !! fresh mounted)
   /\ (fresh mounted
         ∉ hasCanceled (run (validateForm (VObj []) mounted)
                          [SetStatus (VStr "busy")]))
   /\ didMount (run (validateForm (VObj []) mounted) [SetStatus (VStr "busy")])
      = true)
  /\ (let c1 := run (validateForm (VObj []) mounted) [SetStatus (VStr "busy")] in
      let c2 := step c1 (SettleValidation (fresh mounted)
                           (Rejected (VStr "boom"))) in
      resolved c2
      = (resolved c1 ++ [(fresh mounted, Fulfilled (VStr "boom"))])%list
      /\ isValidating (state c2) = false
      /\ errors (state c2) = errors (state c1)).
Proof.
  assert (H1 : reachable mounted) by (eexists _, _; reflexivity).
  assert (H2 : is_Some (runs (run (validateForm (VObj []) mounted)
                                [SetStatus (VStr "busy")]) !! fresh mounted))
    by (eexists; vm_compute; reflexivity).
  assert (H3 : fresh mounted
                 ∉ hasCanceled (run (validateForm (VObj []) mounted)
                                  [SetStatus (VStr "busy")]))
    by (vm_compute; set_solver).
  assert (H4 : didMount (run (validateForm (VObj []) mounted)
                           [SetStatus (VStr "busy")]) = true) by reflexivity.
  split; [repeat split; assumption |].
  destruct (validateForm_never_rejects mounted (VObj [])
              [SetStatus (VStr "busy")] (Rejected (VStr "boom")) H1 H2 H3)
    as (_ & _ & G1 & G2 & G3 & _).
  exact (conj G1 (conj (G2 H4) (G3 _ eq_refl))).
Defined.

(** ** Submission after a validator has thrown *)

(** X7. When the merged promise of a submission's validation is rejected
    with [x] (a handler-level validator or a schema call that throws) and
    the run is delivered, [errors] is not written and [x] is counted for
    keys in place of the error tree. With no key ([x] is an [Error]
    instance, an empty object, a number) the submit handler is invoked and
    [isSubmitting] stays as it is; with keys ([x] is a non-empty string,
    say) the submission is given up, the promise of [submitForm()] is
    fulfilled with [undefined] and a mounted instance clears
    [isSubmitting]; with [undefined] or [null], [Object.keys] raises a
    [TypeError], the promise is rejected with it, the handler is not
    invoked and [isSubmitting] stays set. *)
Theorem submitForm_validation_rejected c es x :
  reachable c ->
  is_Some (runs (run (submitForm c) es) !! fresh c) ->
  fresh c ∉ hasCanceled (run (submitForm c) es) ->
  let c1 := run (submitForm c) es in
  let c2 := step c1 (SettleValidation (fresh c) (Rejected x)) in
  errors (state c2) = errors (state c1)
  /\ match object_keys_length x with
     | Some 0 =>
         submitted c2 = (submitted c1 ++ [values (state c1)])%list
         /\ resolved c2
            = (resolved c1
               ++ [(fresh c,
                    promise_of_call
                      (Props.onSubmit (props c1) (values (state c1))))])%list
         /\ isSubmitting (state c2) = isSubmitting (state c1)
     | Some (S _) =>
         submitted c2 = submitted c1
         /\ resolved c2 = (resolved c1 ++ [(fresh c, Fulfilled VUndef)])%list
         /\ isSubmitting (state c2)
            = (if didMount c1 then false else isSubmitting (state c1))
     | None =>
         submitted c2 = submitted c1
         /\ resolved c2
            = (resolved c1 ++ [(fresh c, Rejected type_error)])%list
         /\ isSubmitting (state c2) = isSubmitting (state c1)
     end.
Proof.
  intros Hreach Hpending Hnc c1 c2.
  pose proof (submitForm_run_pending c es Hreach Hpending) as Hrun.
  fold c1 in Hrun, Hnc.
  subst c2. unfold step. rewrite (settle_delivered _ _ _ _ Hrun Hnc).
  cbv zeta. simpl run_then.
  rewrite commitErrors_handed_on, commitErrors_rejected.
  unfold continue, clearValidating, executeSubmit, resolve.
  destruct (object_keys_length x) as [[|n]|];
    destruct (didMount c1) eqn:Hm; simpl; rewrite ?Hm; simpl;
    repeat split; reflexivity.
Qed.

Lemma submitForm_validation_rejected_witness :
  (reachable mounted
   /\ is_Some (runs (run (submitForm mounted) []) !! fresh mounted)
   /\ (fresh mounted ∉ hasCanceled (run (submitForm mounted) [])))
  /\ (let c1 := run (submitForm mounted) [] in
      let c2 := step c1 (SettleValidation (fresh mounted) (Rejected (VObj []))) in
      errors (state c2) = errors (state c1)
      /\ submitted c2 = (submitted c1 ++ [values (state c1)])%list
      /\ resolved c2
         = (resolved c1
            ++ [(fresh mounted,
                 promise_of_call
                   (Props.onSubmit (props c1) (values (state c1))))])%list
      /\ isSubmitting (state c2) = isSubmitting (state c1)).
Proof.
  assert (H1 : reachable mounted) by (eexists _, _; reflexivity).
  assert (H2 : is_Some (runs (run (submitForm mounted) []) !! fresh mounted))
    by (eexists; vm_compute; reflexivity).
  assert (H3 : fresh mounted ∉ hasCanceled (run (submitForm mounted) []))
    by (vm_compute; set_solver).
  split; [repeat split; assumption |].
  exact (submitForm_validation_rejected mounted [] (VObj []) H1 H2 H3).
Defined.

(** ** The cache of blur handlers *)












(** ** validateField *)

Ltac fieldRuns_same := solve [apply fieldRuns_keep; simpl; auto with lia].

Lemma runValidations_fieldRuns k vals c c0 :
  fieldRuns c0 = fieldRuns c -> fresh c0 = fresh c ->
  fieldRuns_effect c (runValidations k vals c0).
Proof.
  intros Hr Hf. apply fieldRuns_keep; unfold runValidations;
    destruct (validator c0); simpl; rewrite ?Hr, ?Hf; auto with lia.
Qed.

Ltac fieldRuns_run :=
  solve [fieldRuns_same | apply runValidations_fieldRuns; reflexivity].

Lemma step_fieldRuns_effect c e : fieldRuns_effect c (step c e).
Proof.
  destruct e; simpl;
    try (unfold componentDidMount, registerField, unregisterField, setErrors,
           setStatus, setError, setFieldError, resetForm,
           submitForm, validateForm; fieldRuns_run).
  - unfold componentWillUnmount; simpl. destruct (validator c); fieldRuns_run.
  - unfold componentDidUpdate, resetForm. destruct (_ && _); fieldRuns_run.
  - unfold setTouched. destruct (Props.validateOnBlur _); fieldRuns_run.
  - unfold setValues. destruct (Props.validateOnChange _); fieldRuns_run.
  - unfold setSubmitting. destruct (didMount c); fieldRuns_run.
  - unfold validateField. simpl.
    eapply fieldRuns_add; reflexivity.
  - unfold executeChange. destruct (negb _); [| fieldRuns_run].
    destruct (Props.validateOnChange _); fieldRuns_run.
  - unfold handleChange. destruct (hcCache c !! path); fieldRuns_run.
  - unfold setFieldValue. destruct (didMount c); [| fieldRuns_run].
    destruct (_ && _); fieldRuns_run.
  - unfold executeBlur. destruct (Props.validateOnBlur _); fieldRuns_run.
  - unfold handleBlur. destruct (hbCache c !! path); fieldRuns_run.
  - unfold setFieldTouched. destruct (_ && _); fieldRuns_run.
  - unfold handleReset, resetForm.
    destruct (Props.onReset _) as [f|]; [destruct (f _) |]; fieldRuns_run.
  - unfold settleValidation.
    destruct (runs c !! id) as [r|]; [| fieldRuns_run].
    unfold makeCancelable. destruct (bool_decide _); [fieldRuns_run |].
    unfold continue, clearValidating, executeSubmit, resolve.
    destruct merged as [errs | x]; simpl.
    + destruct (didMount c) eqn:E; simpl; rewrite ?E;
        destruct (run_then r); simpl; rewrite ?E; simpl; try fieldRuns_run;
        destruct (object_keys_length errs) as [[|n]|]; simpl; rewrite ?E;
        fieldRuns_run.
    + destruct (didMount c) eqn:E; simpl; rewrite ?E;
        destruct (run_then r); simpl; rewrite ?E; simpl; try fieldRuns_run;
        destruct (object_keys_length x) as [[|n]|]; simpl; rewrite ?E;
        fieldRuns_run.
  - unfold settleFieldValidation, resolve.
    destruct (fieldRuns c !! id) as [[f [err|e]]|] eqn:E; simpl;
      [destruct (didMount c) | |];
      try (apply (fieldRuns_settle _ _ id); reflexivity).
    fieldRuns_run.
  - unfold settleReset, resetForm.
    destruct (resets c !! id) as [[v|r]|]; fieldRuns_run.
Qed.

Lemma fieldRuns_fresh_effect c c' :
  fieldRuns_effect c c' -> fieldRuns_fresh c -> fieldRuns_fresh c'.
Proof.
  unfold fieldRuns_fresh.
  intros [Hr Hf | field p Hr Hf | i Hr Hf] H id entry; rewrite Hr.
  - intros E. apply H in E. lia.
  - intros E. apply lookup_insert_Some in E as [[<- _] | [_ E]]; [lia |].
    apply H in E. lia.
  - intros E. apply lookup_delete_Some in E as [_ E]. apply H in E. lia.
Qed.

Lemma fieldRuns_fresh_run es : forall c,
  fieldRuns_fresh c -> fieldRuns_fresh (run c es).
Proof.
  induction es as [|e es IH]; intros c Hc; [exact Hc |].
  simpl. apply IH.
  exact (fieldRuns_fresh_effect _ _ (step_fieldRuns_effect c e) Hc).
Qed.

Lemma fieldRuns_fresh_reachable c : reachable c -> fieldRuns_fresh c.
Proof.
  intros (p & es & ->). apply fieldRuns_fresh_run.
  intros id entry E. simpl in E. rewrite lookup_empty in E. discriminate.
Qed.

Lemma fieldRuns_fresh_le c c' : fieldRuns_effect c c' -> fresh c <= fresh c'.
Proof. intros [_ Hf | _ _ _ Hf | _ _ Hf]; lia. Qed.

Lemma fieldRuns_retired_run es : forall c id,
  id < fresh c -> fieldRuns c !! id = None ->
  fieldRuns (run c es) !! id = None.
Proof.
  induction es as [|e es IH]; intros c id Hlt Hid; [exact Hid |].
  simpl. pose proof (step_fieldRuns_effect c e) as He.
  apply IH; [pose proof (fieldRuns_fresh_le _ _ He); lia |].
  destruct He as [Hr _ | field p Hr _ | i Hr _]; rewrite Hr.
  - exact Hid.
  - rewrite lookup_insert_ne by lia. exact Hid.
  - apply lookup_delete_None. right; exact Hid.
Qed.

Lemma fieldRuns_stable_run es : forall c id entry,
  fieldRuns_fresh c -> fieldRuns c !! id = Some entry ->
  fieldRuns (run c es) !! id = Some entry \/ fieldRuns (run c es) !! id = None.
Proof.
  induction es as [|e es IH]; intros c id entry Hfresh Hid; [left; exact Hid |].
  simpl. pose proof (step_fieldRuns_effect c e) as He.
  pose proof (Hfresh _ _ Hid) as Hlt.
  assert (Hfresh' : fieldRuns_fresh (step c e))
    by exact (fieldRuns_fresh_effect _ _ He Hfresh).
  assert (Hcases : fieldRuns (step c e) !! id = Some entry
                   \/ fieldRuns (step c e) !! id = None).
  { destruct He as [Hr _ | field p Hr _ | i Hr _]; rewrite Hr.
    - left; exact Hid.
    - left. rewrite lookup_insert_ne by lia. exact Hid.
    - destruct (decide (i = id)) as [-> | Hne].
      + right. apply lookup_delete_eq.
      + left. rewrite lookup_delete_ne by exact Hne. exact Hid. }
  destruct Hcases as [Hkeep | Hgone].
  - exact (IH _ _ _ Hfresh' Hkeep).
  - right. apply fieldRuns_retired_run; [| exact Hgone].
    pose proof (fieldRuns_fresh_le _ _ (step_fieldRuns_effect c e)). lia.
Qed.

(** X9. [validateField(field)] sets [isValidating] and neither starts nor
    cancels a whole-form run. Its promise is always fulfilled, with what
    the field's validator reports for the value the field had at the call
    (the thrown or rejection value of a validator that fails, a
    [TypeError] for a field that is not registered), and no whole-form run
    started or canceled in the meantime, whatever the operations in
    between, prevents it. When it settles on a mounted instance the report
    is written at the field's path into the errors of that time and
    [isValidating] is cleared; on an instance that is not mounted [state]
    is left as it is. *)
Theorem validateField_settles c field es :
  reachable c ->
  is_Some (fieldRuns (run (validateField field c) es) !! fresh c) ->
  let err := reported (fields c) field (getIn (values (state c)) field) in
  let c1 := run (validateField field c) es in
  let c2 := step c1 (SettleFieldValidation (fresh c)) in
  isValidating (state (validateField field c)) = true
  /\ runs (validateField field c) = runs c
  /\ validator (validateField field c) = validator c
  /\ hasCanceled (validateField field c) = hasCanceled c
  /\ resolved c2 = (resolved c1 ++ [(fresh c, Fulfilled err)])%list
  /\ (didMount c1 = true ->
      errors (state c2) = setIn (errors (state c1)) field err
      /\ isValidating (state c2) = false)
  /\ (didMount c1 = false -> state c2 = state c1).
Proof.
  intros Hreach [entry Hentry] err c1 c2.
  assert (Hstart : fieldRuns (validateField field c) !! fresh c
                   = Some (field, Fulfilled err)).
  { unfold validateField. simpl. rewrite lookup_insert_eq.
    rewrite runSingleFieldLevelValidation_reported. reflexivity. }
  assert (Hfresh : fieldRuns_fresh (validateField field c))
    by exact (fieldRuns_fresh_reachable _
                (reachable_step c (ValidateField field) Hreach)).
  assert (Hrun : fieldRuns c1 !! fresh c = Some (field, Fulfilled err)).
  { destruct (fieldRuns_stable_run es _ _ _ Hfresh Hstart) as [H | H];
      [exact H |]. subst c1. congruence. }
  assert (Hc2 : c2 = resolve (fresh c) (Fulfilled err)
                     (let c' := set_fieldRuns (delete (fresh c) (fieldRuns c1)) c1 in
                      if didMount c'
                      then setState (fun s =>
                             with_isValidating false
                               (with_errors (setIn (errors s) field err) s)) c'
                      else c')).
  { subst c2. unfold step, settleFieldValidation. rewrite Hrun. reflexivity. }
  split; [reflexivity |]. split; [reflexivity |]. split; [reflexivity |].
  split; [reflexivity |]. rewrite Hc2. cbv zeta. simpl.
  split; [destruct (didMount c1); reflexivity |].
  split; intros Hm; rewrite Hm; simpl; [split |]; reflexivity.
Qed.

Lemma validateField_settles_witness :
  (reachable with_sample_fields
   /\ is_Some (fieldRuns (run (validateField "email" with_sample_fields)
                            [ValidateForm (VObj []); SubmitForm])
                 !! fresh with_sample_fields)
   /\ didMount (run (validateField "email" with_sample_fields)
                  [ValidateForm (VObj []); SubmitForm]) = true)
  /\ (let c1 := run (validateField "email" with_sample_fields)
                  [ValidateForm (VObj []); SubmitForm] in
      let c2 := step c1 (SettleFieldValidation (fresh with_sample_fields)) in
      resolved c2
      = (resolved c1
         ++ [(fresh with_sample_fields, Fulfilled (VStr "Invalid email"))])%list
      /\ errors (state c2)
         = setIn (errors (state c1)) "email" (VStr "Invalid email")
      /\ isValidating (state c2) = false).
Proof.
  assert (H1 : reachable with_sample_fields) by (eexists _, _; reflexivity).
  assert (H2 : is_Some (fieldRuns (run (validateField "email" with_sample_fields)
                                     [ValidateForm (VObj []); SubmitForm])
                          !! fresh with_sample_fields))
    by (eexists; vm_compute; reflexivity).
  assert (H3 : didMount (run (validateField "email" with_sample_fields)
                           [ValidateForm (VObj []); SubmitForm]) = true)
    by reflexivity.
  split; [repeat split; assumption |].
  destruct (validateField_settles with_sample_fields "email"
              [ValidateForm (VObj []); SubmitForm] H1 H2)
    as (_ & _ & _ & _ & G1 & G2 & _).
  destruct (G2 H3) as [G3 G4].
  exact (conj G1 (conj G3 G4)).
Defined.

(** ** The field registry *)

Lemma fields_find_register_same name comp : forall fs,
  fields_find name (registerField_in name comp fs) = Some comp.
Proof.
  induction fs as [|[n c] rest IH]; simpl.
  - rewrite String.eqb_refl. reflexivity.
  - destruct (String.eqb name n) eqn:E; simpl.
    + rewrite String.eqb_refl. reflexivity.
    + rewrite E. exact IH.
Qed.

Lemma fields_find_register_other name comp other : other <> name ->
  forall fs,
  fields_find other (registerField_in name comp fs) = fields_find other fs.
Proof.
  intros Hne. apply String.eqb_neq in Hne.
  induction fs as [|[n c] rest IH]; simpl.
  - rewrite Hne. reflexivity.
  - destruct (String.eqb name n) eqn:E; simpl.
    + apply String.eqb_eq in E. subst n. rewrite Hne. reflexivity.
    + rewrite IH. reflexivity.
Qed.

Lemma fields_find_unregister_same name : forall fs,
  fields_find name (unregisterField_in name fs) = None.
Proof.
  induction fs as [|[n c] rest IH]; simpl; [reflexivity |].
  destruct (String.eqb name n) eqn:E; simpl; [exact IH |].
  rewrite E. exact IH.
Qed.

Lemma fields_find_unregister_other name other : other <> name ->
  forall fs,
  fields_find other (unregisterField_in name fs) = fields_find other fs.
Proof.
  intros Hne. apply String.eqb_neq in Hne.
  induction fs as [|[n c] rest IH]; simpl; [reflexivity |].
  destruct (String.eqb name n) eqn:E; simpl.
  - apply String.eqb_eq in E. subst n. rewrite Hne. exact IH.
  - rewrite IH. reflexivity.
Qed.

Lemma filter_keys_unregister (h : string -> bool) name : h name = false ->
  forall fs,
  List.filter h (map fst (unregisterField_in name fs))
  = List.filter h (map fst fs).
Proof.
  intros Hh. induction fs as [|[n c] rest IH]; simpl; [reflexivity |].
  destruct (String.eqb name n) eqn:E; simpl.
  - apply String.eqb_eq in E. subst n. rewrite Hh. exact IH.
  - rewrite IH. reflexivity.
Qed.

Lemma filter_keys_register (h : string -> bool) name comp : h name = false ->
  forall fs,
  List.filter h (map fst (registerField_in name comp fs))
  = List.filter h (map fst fs).
Proof.
  intros Hh. induction fs as [|[n c] rest IH]; simpl.
  - rewrite Hh. reflexivity.
  - destruct (String.eqb name n) eqn:E; simpl.
    + apply String.eqb_eq in E. subst n. rewrite Hh. reflexivity.
    + rewrite IH. reflexivity.
Qed.

(** X10. [registerField(name, Comp)] replaces what was registered under
    [name]: a single-field validation of [name] then calls the validator of
    [Comp] (and fulfils with a [TypeError] when [Comp] has none); after
    [unregisterField(name)] it fulfils with a [TypeError]. The validation
    of a field registered under another name is the same before and after
    either call. *)
Theorem registry_replaces_and_removes c name comp other v :
  other <> name ->
  runSingleFieldLevelValidation (fields (registerField name comp c)) name v
  = Fulfilled (match field_validate comp with
               | Some validate => field_outcome (validate v)
               | None => type_error
               end)
  /\ runSingleFieldLevelValidation (fields (unregisterField name c)) name v
     = Fulfilled type_error
  /\ runSingleFieldLevelValidation (fields (registerField name comp c)) other v
     = runSingleFieldLevelValidation (fields c) other v
  /\ runSingleFieldLevelValidation (fields (unregisterField name c)) other v
     = runSingleFieldLevelValidation (fields c) other v.
Proof.
  intros Hne. rewrite !runSingleFieldLevelValidation_reported.
  unfold reported, registerField, unregisterField. simpl.
  rewrite fields_find_register_same, fields_find_unregister_same.
  rewrite (fields_find_register_other _ _ _ Hne).
  rewrite (fields_find_unregister_other _ _ Hne).
  repeat split; reflexivity.
Qed.

Lemma registry_replaces_and_removes_witness :
  "name" <> "email"
  /\ runSingleFieldLevelValidation
       (fields (registerField "email"
                  (mkField (Some (fun v => Returns (VStr "Taken"))))
                  with_sample_fields))
       "email" (VStr "a@b.c")
     = Fulfilled (VStr "Taken")
  /\ runSingleFieldLevelValidation
       (fields (unregisterField "email" with_sample_fields))
       "email" (VStr "a@b.c")
     = Fulfilled type_error.
Proof.
  assert (H : "name" <> "email") by discriminate.
  destruct (registry_replaces_and_removes with_sample_fields "email"
              (mkField (Some (fun v => Returns (VStr "Taken"))))
              "name" (VStr "a@b.c") H) as (G1 & G2 & _).
  exact (conj H (conj G1 G2)).
Defined.

Lemma reported_without_validator name fs f v :
  reported (registerField_in name (mkField None) fs) f v
  = reported (unregisterField_in name fs) f v.
Proof.
  unfold reported. destruct (String.eqb f name) eqn:E.
  - apply String.eqb_eq in E. subst f.
    rewrite fields_find_register_same, fields_find_unregister_same.
    reflexivity.
  - apply String.eqb_neq in E.
    rewrite (fields_find_register_other _ _ _ E).
    rewrite (fields_find_unregister_other _ _ E). reflexivity.
Qed.

Lemma has_validate_without_validator name fs f :
  has_validate (registerField_in name (mkField None) fs) f
  = (negb (String.eqb f name) && has_validate fs f)
  /\ has_validate (unregisterField_in name fs) f
     = (negb (String.eqb f name) && has_validate fs f).
Proof.
  unfold has_validate. destruct (String.eqb f name) eqn:E.
  - apply String.eqb_eq in E. subst f.
    rewrite fields_find_register_same, fields_find_unregister_same.
    split; reflexivity.
  - apply String.eqb_neq in E.
    rewrite (fields_find_register_other _ _ _ E).
    rewrite (fields_find_unregister_other _ _ E). split; reflexivity.
Qed.

Lemma fieldKeysWithValidation_without_validator name fs :
  fieldKeysWithValidation (registerField_in name (mkField None) fs)
  = fieldKeysWithValidation (unregisterField_in name fs).
Proof.
  unfold fieldKeysWithValidation.
  pose (h := fun f => negb (String.eqb f name) && has_validate fs f).
  assert (Hh : h name = false) by (unfold h; rewrite String.eqb_refl; reflexivity).
  rewrite (List.filter_ext _ h)
    by (intros f; apply has_validate_without_validator).
  rewrite (List.filter_ext
             (has_validate (unregisterField_in name fs)) h)
    by (intros f; apply has_validate_without_validator).
  rewrite (filter_keys_register h name _ Hh).
  rewrite (filter_keys_unregister h name Hh). reflexivity.
Qed.

(** X11. A field registered without a [validate] prop counts for the
    field-level validation of the whole form exactly as a field that is not
    registered: the promise of [runFieldLevelValidations] is the same for
    the registry in which [name] is registered with a component that has no
    validator and for the registry from which [name] has been removed,
    whatever else is registered and whatever the values. *)
Theorem field_without_validator_is_skipped name fs values :
  runFieldLevelValidations (registerField_in name (mkField None) fs) values
  = runFieldLevelValidations (unregisterField_in name fs) values.
Proof.
  rewrite !runFieldLevelValidations_spec. unfold spec_fieldErrors.
  rewrite fieldKeysWithValidation_without_validator.
  rewrite (map_ext
             (fun f => (f, reported (registerField_in name (mkField None) fs)
                             f (getIn values f)))
             (fun f => (f, reported (unregisterField_in name fs)
                             f (getIn values f))))
    by (intros f; rewrite reported_without_validator; reflexivity).
  reflexivity.
Qed.

(** ** arrayMerge *)

Lemma arr_set_length v : forall i items,
  length (arr_set i v items) = Nat.max (S i) (length items).
Proof.
  induction i as [|i IH]; intros [|x rest]; simpl; try reflexivity.
  - rewrite IH. simpl. lia.
  - rewrite IH. lia.
Qed.

Lemma arr_set_nth_same v : forall i items, nth i (arr_set i v items) VUndef = v.
Proof.
  induction i as [|i IH]; intros [|x rest]; simpl; try reflexivity; apply IH.
Qed.

Lemma arr_set_nth_other v : forall i items j, j <> i ->
  nth j (arr_set i v items) VUndef = nth j items VUndef.
Proof.
  induction i as [|i IH]; intros [|x rest] [|j] Hne; simpl;
    try reflexivity; try lia.
  - destruct j; reflexivity.
  - rewrite IH by lia. destruct j; reflexivity.
  - apply IH. lia.
Qed.

Lemma defined_in_range (items : list value) i :
  is_undefined (nth i items VUndef) = false -> i < length items.
Proof.
  intros H. destruct (Nat.lt_ge_cases i (length items)) as [Hlt | Hge];
    [exact Hlt |].
  rewrite nth_overflow in H by exact Hge. discriminate.
Qed.

Lemma strictly_equal_eq e x : strictly_equal e x = true -> x = e.
Proof.
  destruct e, x; simpl; try discriminate; intros H; try reflexivity.
  - apply Bool.eqb_prop in H. congruence.
  - apply Z.eqb_eq in H. congruence.
  - apply String.eqb_eq in H. congruence.
Qed.

Lemma strictly_equal_refl e : is_container e = false -> strictly_equal e e = true.
Proof.
  destruct e; simpl; try discriminate; intros _; try reflexivity.
  - apply Bool.eqb_reflx.
  - apply Z.eqb_refl.
  - apply String.eqb_refl.
Qed.

Lemma indexOf_found e target :
  is_container e = false -> In e target ->
  existsb (strictly_equal e) target = true.
Proof.
  intros He Hin. apply existsb_exists. exists e.
  split; [exact Hin | exact (strictly_equal_refl e He)].
Qed.

Lemma indexOf_In e target :
  existsb (strictly_equal e) target = true -> In e target.
Proof.
  intros H. apply existsb_exists in H as (x & Hin & Hx).
  apply strictly_equal_eq in Hx. subst x. exact Hin.
Qed.

Section ArrayMerge.

Variable deepmerge : value -> value -> value.
Variable clone : bool.
Variable target : list value.

(** One round of [forEach]: the slot [i] is the only slot below the
    length that can change, and the array grows by one slot at most. *)
Lemma arrayMerge_element_step destination e i :
  i <= length destination ->
  let destination' := arrayMerge_element deepmerge clone target destination e i in
  S i <= length destination'
  /\ length destination <= length destination'
  /\ length destination' <= S (length destination)
  /\ (forall j, j <> i -> j < length destination ->
      nth j destination' VUndef = nth j destination VUndef)
  /\ (is_undefined (nth i destination VUndef) = false ->
      nth i destination' VUndef
      = if is_container e then deepmerge (nth i target VUndef) e
        else nth i destination VUndef).
Proof.
  intros Hi. unfold arrayMerge_element. cbv zeta.
  destruct (is_undefined (nth i destination VUndef)) eqn:Hundef.
  - rewrite arr_set_length.
    split; [lia |]. split; [lia |]. split; [lia |]. split.
    + intros j Hne _. apply arr_set_nth_other. exact Hne.
    + discriminate.
  - pose proof (defined_in_range _ _ Hundef) as Hlt.
    destruct (is_container e) eqn:He.
    + rewrite arr_set_length.
      split; [lia |]. split; [lia |]. split; [lia |]. split.
      * intros j Hne _. apply arr_set_nth_other. exact Hne.
      * intros _. apply arr_set_nth_same.
    + destruct (negb (existsb (strictly_equal e) target)).
      * rewrite length_app. simpl.
        split; [lia |]. split; [lia |]. split; [lia |]. split.
        -- intros j _ Hj. apply app_nth1. exact Hj.
        -- intros _. apply app_nth1. exact Hlt.
      * split; [lia |]. split; [lia |]. split; [lia |]. split.
        -- intros j _ _. reflexivity.
        -- intros _. reflexivity.
Qed.

Lemma arrayMerge_rounds_length : forall source i destination,
  i <= length destination ->
  let result :=
    reduce_indexed (arrayMerge_element deepmerge clone target)
      source i destination in
  length destination <= length result
  /\ i + length source <= length result
  /\ length result <= length destination + length source.
Proof.
  induction source as [|e rest IH]; intros i destination Hi; simpl.
  - lia.
  - destruct (arrayMerge_element_step destination e i Hi)
      as (H1 & H2 & H3 & _).
    destruct (IH (S i) _ H1) as (G1 & G2 & G3). lia.
Qed.

Lemma arrayMerge_rounds_at j :
  is_undefined (nth j target VUndef) = false ->
  forall source i destination,
  i <= length destination -> j < length destination ->
  (i <= j -> nth j destination VUndef = nth j target VUndef) ->
  nth j (reduce_indexed (arrayMerge_element deepmerge clone target)
           source i destination) VUndef
  = if i <=? j
    then if is_container (nth (j - i) source VUndef)
         then deepmerge (nth j target VUndef) (nth (j - i) source VUndef)
         else nth j target VUndef
    else nth j destination VUndef.
Proof.
  intros Hdef.
  induction source as [|e rest IH]; intros i destination Hi Hj Hsame.
  - simpl. destruct (i <=? j) eqn:E; [| reflexivity].
    apply Nat.leb_le in E. destruct (j - i); simpl; exact (Hsame E).
  - simpl reduce_indexed.
    destruct (arrayMerge_element_step destination e i Hi)
      as (H1 & H2 & _ & H4 & H5).
    rewrite IH; [| exact H1 | lia |].
    + destruct (Nat.lt_trichotomy j i) as [Hlt | [-> | Hgt]].
      * replace (S i <=? j) with false by (symmetry; apply Nat.leb_gt; lia).
        replace (i <=? j) with false by (symmetry; apply Nat.leb_gt; lia).
        apply H4; lia.
      * replace (S i <=? i) with false by (symmetry; apply Nat.leb_gt; lia).
        rewrite Nat.leb_refl, Nat.sub_diag. simpl nth at 2 3.
        assert (Hd : is_undefined (nth i destination VUndef) = false)
          by (rewrite Hsame by lia; exact Hdef).
        rewrite (H5 Hd). rewrite Hsame by lia. reflexivity.
      * replace (S i <=? j) with true by (symmetry; apply Nat.leb_le; lia).
        replace (i <=? j) with true by (symmetry; apply Nat.leb_le; lia).
        replace (j - i) with (S (j - S i)) by lia. reflexivity.
    + intros Hle. rewrite H4 by lia. apply Hsame. lia.
Qed.

Lemma kept_refl a : kept a a.
Proof. split; [lia | intros; reflexivity]. Qed.

Lemma kept_trans a b c : kept a b -> kept b c -> kept a c.
Proof.
  intros [L1 K1] [L2 K2]. split; [lia |].
  intros j Hj. rewrite K2; [exact (K1 j Hj) |]. rewrite (K1 j Hj). exact Hj.
Qed.

Lemma kept_In a b e :
  kept a b -> is_undefined e = false -> In e a -> In e b.
Proof.
  intros [L K] He Hin.
  destruct (In_nth _ _ VUndef Hin) as (j & Hj & Hnth).
  rewrite <- Hnth. rewrite <- K by (rewrite Hnth; exact He).
  apply nth_In. lia.
Qed.

(** A round for an element that is no object and no array keeps every
    defined slot, and the element, when it is defined, is in the array
    afterwards. *)
Lemma arrayMerge_element_primitive destination e i :
  is_container e = false -> kept target destination ->
  let destination' := arrayMerge_element deepmerge clone target destination e i in
  kept destination destination'
  /\ (is_undefined e = false -> In e destination').
Proof.
  intros He Htarget. unfold arrayMerge_element. cbv zeta.
  rewrite He, Bool.andb_false_r.
  destruct (is_undefined (nth i destination VUndef)) eqn:Hundef.
  - split.
    + split; [rewrite arr_set_length; lia |].
      intros j Hj. apply arr_set_nth_other. intros ->. congruence.
    + intros _. rewrite <- (arr_set_nth_same e i destination) at 1.
      apply nth_In. rewrite arr_set_length. lia.
  - destruct (existsb (strictly_equal e) target) eqn:Hfound; simpl.
    + split; [apply kept_refl |].
      intros Hdef. apply (kept_In target); [exact Htarget | exact Hdef |].
      exact (indexOf_In _ _ Hfound).
    + split.
      * split; [rewrite length_app; lia |].
        intros j Hj. apply app_nth1. exact (defined_in_range _ _ Hj).
      * intros _. apply in_or_app. right. left. reflexivity.
Qed.

Lemma arrayMerge_rounds_primitive : forall source i destination,
  Forall (fun e => is_container e = false) source ->
  kept target destination ->
  let result :=
    reduce_indexed (arrayMerge_element deepmerge clone target)
      source i destination in
  kept destination result
  /\ (forall e, In e source -> is_undefined e = false -> In e result).
Proof.
  induction source as [|e rest IH]; intros i destination Hprim Htarget; simpl.
  - split; [apply kept_refl | intros e []].
  - apply List.Forall_cons_iff in Hprim as [He Hrest].
    destruct (arrayMerge_element_primitive destination e i He Htarget)
      as [Hkept Hin].
    destruct (IH (S i) _ Hrest (kept_trans _ _ _ Htarget Hkept)) as [G1 G2].
    split; [exact (kept_trans _ _ _ Hkept G1) |].
    intros x [<- | Hx] Hdef.
    + exact (kept_In _ _ _ G1 Hdef (Hin Hdef)).
    + exact (G2 x Hx Hdef).
Qed.

Lemma arrayMerge_rounds_absorbed : forall source i,
  Forall (fun x => is_undefined x = false) target ->
  Forall (fun e => is_container e = false /\ In e target) source ->
  i + length source <= length target ->
  reduce_indexed (arrayMerge_element deepmerge clone target) source i target
  = target.
Proof.
  intros source i Hdef. revert i.
  induction source as [|e rest IH]; intros i Hsource Hlen; [reflexivity |].
  apply List.Forall_cons_iff in Hsource as [[He Hin] Hrest].
  simpl in Hlen. simpl.
  assert (Hstep : arrayMerge_element deepmerge clone target target e i = target).
  { unfold arrayMerge_element.
    assert (Hi : is_undefined (nth i target VUndef) = false).
    { rewrite List.Forall_forall in Hdef. apply Hdef. apply nth_In. lia. }
    rewrite Hi, He, (indexOf_found e target He Hin). reflexivity. }
  rewrite Hstep. apply IH; [exact Hrest | lia].
Qed.

End ArrayMerge.

(** X12. [arrayMerge(target, source, options)] returns an array at least
    as long as [target] and as [source] and at most as long as both
    together. At an index where [target] holds a defined element, the
    result holds the deep merge of the two elements when the element of
    [source] there is an object or an array, and the element of [target]
    as it is otherwise (also when [source] is shorter). *)
Theorem arrayMerge_at_defined_slot deepmerge clone target source j :
  is_undefined (nth j target VUndef) = false ->
  let result := arrayMerge deepmerge clone target source in
  length target <= length result
  /\ length source <= length result
  /\ length result <= length target + length source
  /\ nth j result VUndef
     = if is_container (nth j source VUndef)
       then deepmerge (nth j target VUndef) (nth j source VUndef)
       else nth j target VUndef.
Proof.
  intros Hdef result. subst result. unfold arrayMerge.
  destruct (arrayMerge_rounds_length deepmerge clone target source 0 target
              (Nat.le_0_l _)) as (H1 & H2 & H3).
  repeat split; [exact H1 | exact H2 | exact H3 |].
  rewrite (arrayMerge_rounds_at deepmerge clone target j Hdef source 0 target);
    [| lia | exact (defined_in_range _ _ Hdef) | reflexivity].
  simpl. rewrite Nat.sub_0_r. reflexivity.
Qed.

Lemma arrayMerge_at_defined_slot_witness :
  is_undefined (nth 1 [VStr "a"; VStr "b"] VUndef) = false
  /\ nth 1 (arrayMerge (fun x y => y) true [VStr "a"; VStr "b"]
              [VStr "c"; VObj [("k", VStr "d")]; VStr "e"]) VUndef
     = VObj [("k", VStr "d")].
Proof.
  assert (H : is_undefined (nth 1 [VStr "a"; VStr "b"] VUndef) = false)
    by reflexivity.
  destruct (arrayMerge_at_defined_slot (fun x y => y) true
              [VStr "a"; VStr "b"]
              [VStr "c"; VObj [("k", VStr "d")]; VStr "e"] 1 H)
    as (_ & _ & _ & G).
  exact (conj H G).
Defined.

(** X13. When no element of [source] is an object or an array (arrays of
    messages), [arrayMerge] loses nothing: every defined element of
    [target] is at the same index in the result, and every defined element
    of [source] occurs in the result, whatever [deepmerge] and the
    options. *)
Theorem arrayMerge_loses_no_message deepmerge clone target source :
  Forall (fun e => is_container e = false) source ->
  let result := arrayMerge deepmerge clone target source in
  (forall j, is_undefined (nth j target VUndef) = false ->
     nth j result VUndef = nth j target VUndef)
  /\ (forall e, In e source -> is_undefined e = false -> In e result).
Proof.
  intros Hprim result. subst result. unfold arrayMerge.
  destruct (arrayMerge_rounds_primitive deepmerge clone target source 0 target
              Hprim (kept_refl target)) as [[_ G1] G2].
  split; [exact G1 | exact G2].
Qed.

Lemma arrayMerge_loses_no_message_witness :
  Forall (fun e => is_container e = false) [VStr "c"; VStr "a"; VStr "e"]
  /\ nth 0 (arrayMerge (fun x y => y) true [VStr "a"; VStr "b"]
              [VStr "c"; VStr "a"; VStr "e"]) VUndef = VStr "a"
  /\ In (VStr "c") (arrayMerge (fun x y => y) true [VStr "a"; VStr "b"]
                      [VStr "c"; VStr "a"; VStr "e"]).
Proof.
  assert (H : Forall (fun e => is_container e = false)
                [VStr "c"; VStr "a"; VStr "e"])
    by (repeat constructor).
  destruct (arrayMerge_loses_no_message (fun x y => y) true
              [VStr "a"; VStr "b"] [VStr "c"; VStr "a"; VStr "e"] H)
    as [G1 G2].
  refine (conj H (conj (G1 0 _) (G2 (VStr "c") _ _))).
  - reflexivity.
  - left. reflexivity.
  - reflexivity.
Defined.

(** X14. [arrayMerge] returns [target] unchanged when [target] has no
    undefined element and [source] is no longer than [target] and holds
    only elements that are no objects or arrays and occur in [target]; in
    particular merging such an array with itself gives the array back. *)
Theorem arrayMerge_absorbs_known_messages deepmerge clone target source :
  Forall (fun x => is_undefined x = false) target ->
  Forall (fun e => is_container e = false /\ In e target) source ->
  length source <= length target ->
  arrayMerge deepmerge clone target source = target.
Proof.
  intros Hdef Hsource Hlen. unfold arrayMerge.
  apply arrayMerge_rounds_absorbed; [exact Hdef | exact Hsource | lia].
Qed.

Lemma arrayMerge_absorbs_known_messages_witness :
  arrayMerge (fun x y => y) true [VStr "a"; VStr "b"] [VStr "b"; VStr "a"]
  = [VStr "a"; VStr "b"].
Proof.
  apply arrayMerge_absorbs_known_messages.
  - repeat constructor.
  - apply List.Forall_cons; [split; [reflexivity | right; left; reflexivity] |].
    apply List.Forall_cons; [split; [reflexivity | left; reflexivity] |].
    apply List.Forall_nil.
  - simpl. lia.
Defined.

(** ** Calls of the submit handler *)

Lemma submissions_keep c c' n :
  submitted c' = submitted c -> runs c' = runs c ->
  validator c' = validator c -> hasCanceled c' = hasCanceled c ->
  submissions c' <= submissions c + n.
Proof.
  intros Hs Hr Hv Hc. unfold submissions, submission_pending.
  rewrite Hs, Hr, Hv, Hc. lia.
Qed.

Lemma submission_pending_start k vals c0 :
  submission_pending (runValidations k vals c0)
  <= match k with ThenSubmitForm => 1 | _ => 0 end.
Proof.
  unfold submission_pending, runValidations.
  destruct (validator c0) as [previous|]; simpl;
    rewrite lookup_insert_eq; simpl;
    destruct k; try lia; destruct (bool_decide _); lia.
Qed.

Lemma runValidations_submitted k vals c0 :
  submitted (runValidations k vals c0) = submitted c0.
Proof.
  unfold runValidations. destruct (validator c0); reflexivity.
Qed.

Lemma submissions_start k vals c c0 :
  submitted c0 = submitted c ->
  submissions (runValidations k vals c0)
  <= submissions c + match k with ThenSubmitForm => 1 | _ => 0 end.
Proof.
  intros Hs. unfold submissions. rewrite runValidations_submitted, Hs.
  pose proof (submission_pending_start k vals c0). lia.
Qed.

Lemma submission_pending_settled id c c' :
  runs c' = delete id (runs c) -> validator c' = validator c ->
  hasCanceled c' = hasCanceled c ->
  submission_pending c' <= submission_pending c
  /\ (validator c = Some id -> submission_pending c' = 0).
Proof.
  intros Hr Hv Hc. unfold submission_pending. rewrite Hr, Hv, Hc.
  destruct (validator c) as [v|]; [| split; [lia | discriminate]].
  destruct (decide (v = id)) as [-> | Hne].
  - rewrite lookup_delete_eq. split; [lia | reflexivity].
  - rewrite lookup_delete_ne by congruence. split; [lia | congruence].
Qed.

Lemma continue_submitted k id errs c :
  submitted (continue k id errs c) = submitted c
  \/ (k = ThenSubmitForm
      /\ length (submitted (continue k id errs c)) = S (length (submitted c))).
Proof.
  unfold continue, clearValidating, executeSubmit, resolve.
  destruct k; simpl.
  - left. destruct (didMount c); reflexivity.
  - left. destruct (didMount c); reflexivity.
  - destruct (object_keys_length errs) as [[|n]|]; simpl.
    + right. split; [reflexivity |].
      destruct (didMount c); simpl; rewrite length_app; simpl; lia.
    + left. destruct (didMount c) eqn:E; simpl; rewrite ?E; reflexivity.
    + left. destruct (didMount c); reflexivity.
Qed.

Lemma commitErrors_submitted merged c :
  submitted (fst (commitErrors merged c)) = submitted c.
Proof.
  unfold commitErrors. destruct merged; simpl; [| reflexivity].
  destruct (didMount c); reflexivity.
Qed.

Lemma submissions_settle id merged c :
  wf c ->
  submissions (settleValidation id merged c) <= submissions c.
Proof.
  intros Hwf. unfold submissions.
  pose proof (settleValidation_effect id merged c) as He.
  unfold settleValidation in *.
  destruct (runs c !! id) as [r|] eqn:Er; [| lia].
  cbv zeta in *. unfold makeCancelable in *.
  destruct (bool_decide (id ∈ hasCanceled (set_runs (delete id (runs c)) c)))
    eqn:Ecan.
  - destruct (submission_pending_settled id c
                (set_runs (delete id (runs c)) c)) as [Hle _];
      try reflexivity.
    simpl submitted. lia.
  - assert (Hlive : id ∉ hasCanceled c)
      by (apply bool_decide_eq_false in Ecan; exact Ecan).
    assert (Hv : validator c = Some id).
    { destruct (wf_superseded c Hwf id r Er) as [H | H];
        [exact H | contradiction]. }
    destruct (commitErrors merged (set_runs (delete id (runs c)) c))
      as [c2 errs] eqn:Ec.
    pose proof (commitErrors_keep merged (set_runs (delete id (runs c)) c)) as Hk.
    pose proof (commitErrors_submitted merged (set_runs (delete id (runs c)) c))
      as Hs.
    rewrite Ec in Hk, Hs. simpl in Hk, Hs.
    pose proof (continue_keep (run_then r) id errs c2) as Hc.
    destruct (submission_pending_settled id c
                (continue (run_then r) id errs c2)) as [_ Hzero];
      [intuition congruence | intuition congruence | intuition congruence |].
    rewrite (Hzero Hv).
    assert (Hp : run_then r = ThenSubmitForm -> submission_pending c = 1).
    { intros Hthen. unfold submission_pending. rewrite Hv, Er, Hthen.
      rewrite bool_decide_eq_false_2 by exact Hlive. reflexivity. }
    destruct (continue_submitted (run_then r) id errs c2) as [H | [Hthen H]].
    + rewrite H, Hs. lia.
    + rewrite H, Hs, (Hp Hthen). lia.
Qed.

Ltac submissions_same := solve [apply submissions_keep; simpl; reflexivity].
Ltac submissions_run c :=
  solve [submissions_same
        | eapply Nat.le_trans;
          [apply (submissions_start _ _ c); reflexivity | simpl; lia]].

Lemma submissions_step c e :
  wf c ->
  submissions (step c e)
  <= submissions c + (if is_submitForm e then 1 else 0).
Proof.
  intros Hwf.
  destruct e; simpl step; cbn [is_submitForm];
    try (unfold componentDidMount, registerField, unregisterField, setErrors,
           setStatus, setError, setFieldError, resetForm, validateField,
           submitForm, validateForm;
         submissions_run c).
  - unfold componentWillUnmount, submissions, submission_pending; simpl.
    destruct (validator c) as [v|]; simpl; [| lia].
    destruct (runs c !! v) as [r|]; [| lia].
    destruct (run_then r); try lia.
    rewrite bool_decide_eq_true_2 by set_solver. lia.
  - unfold componentDidUpdate, resetForm.
    destruct (_ && _); submissions_same.
  - unfold setTouched. destruct (Props.validateOnBlur _); submissions_run c.
  - unfold setValues. destruct (Props.validateOnChange _); submissions_run c.
  - unfold setSubmitting. destruct (didMount c); submissions_same.
  - unfold executeChange. destruct (negb _); [| submissions_same].
    destruct (Props.validateOnChange _); submissions_run c.
  - unfold handleChange. destruct (hcCache c !! path); submissions_same.
  - unfold setFieldValue. destruct (didMount c); [| submissions_same].
    destruct (_ && _); submissions_run c.
  - unfold executeBlur. destruct (Props.validateOnBlur _); submissions_run c.
  - unfold handleBlur. destruct (hbCache c !! path); submissions_same.
  - unfold setFieldTouched. destruct (_ && _); submissions_run c.
  - unfold handleReset, resetForm.
    destruct (Props.onReset _) as [f|]; [destruct (f _) |]; submissions_same.
  - pose proof (submissions_settle id merged c Hwf). lia.
  - unfold settleFieldValidation, resolve.
    destruct (fieldRuns c !! id) as [[f [err|e]]|]; simpl;
      [destruct (didMount c) | |]; submissions_same.
  - unfold settleReset, resetForm.
    destruct (resets c !! id) as [[v|r]|]; submissions_same.
Qed.

Lemma submissions_run_le es : forall c,
  wf c ->
  submissions (run c es) <= submissions c + submitForm_calls es.
Proof.
  induction es as [|e es IH]; intros c Hwf; [simpl; unfold submitForm_calls; simpl; lia |].
  simpl run. pose proof (submissions_step c e Hwf) as Hstep.
  pose proof (IH (step c e) (wf_step c e Hwf)) as Hrest.
  unfold submitForm_calls in *. simpl List.filter.
  destruct (is_submitForm e); simpl length; lia.
Qed.

(** X15. The submit handler is never invoked more often than [submitForm]
    is called. From any instance the operations can produce, over any
    further operations in any order (results that arrive late, twice or
    never, newer runs, teardown and resets included), [props.onSubmit] is
    invoked at most once for every call of [submitForm] among them, and at
    most once more when a submission was pending and not canceled at the
    start; a submission that is still pending and not canceled at the end
    has not yet used its invocation. *)
Theorem onSubmit_at_most_once_per_submitForm c es :
  reachable c ->
  length (submitted (run c es)) + submission_pending (run c es)
  <= length (submitted c) + submission_pending c + submitForm_calls es.
Proof.
  intros Hreach.
  exact (submissions_run_le es c (wf_reachable c Hreach)).
Qed.

Lemma onSubmit_at_most_once_per_submitForm_witness :
  reachable mounted
  /\ length (submitted (run mounted
                          [SubmitForm; SubmitForm;
                           SettleValidation 0 (Fulfilled (VObj []));
                           SettleValidation 1 (Fulfilled (VObj []));
                           SettleValidation 1 (Fulfilled (VObj []))]))
     <= 2.
Proof.
  assert (H : reachable mounted) by (eexists _, _; reflexivity).
  pose proof (onSubmit_at_most_once_per_submitForm mounted
                [SubmitForm; SubmitForm;
                 SettleValidation 0 (Fulfilled (VObj []));
                 SettleValidation 1 (Fulfilled (VObj []));
                 SettleValidation 1 (Fulfilled (VObj []))] H) as G.
  split; [exact H |].
  change (length (submitted mounted) + submission_pending mounted
          + submitForm_calls
              [SubmitForm; SubmitForm;
               SettleValidation 0 (Fulfilled (VObj []));
               SettleValidation 1 (Fulfilled (VObj []));
               SettleValidation 1 (Fulfilled (VObj []))]) with 2 in G.
  lia.
Defined.

(** ** submitCount *)





